(** * retrain.py: retraining a fixed architecture found by ENAS

    A shallow embedding of [NAS/retrain.py]: the two passes [train] and
    [validate], the epoch loop of the [__main__] block and its command
    line.  The deep-learning framework (model, autograd, optimizer,
    scheduler) is a collaborator of the script; it enters the
    development as the class [Framework], and every call the script
    issues to it is recorded, in program order, in the [trace] of the
    [World] the script runs in.

    Python floats are IEEE binary64 numbers; they are [spec_float]s with
    the operations of [SpecFloat] at precision 53 and maximal exponent
    1024, so the comparisons keep their behaviour on NaN and on signed
    zeros.  Python integers are [Z]. *)

From Stdlib Require Import ZArith List Bool String Lia.
From Stdlib Require Import Floats.SpecFloat.
Import ListNotations.
Local Open Scope Z_scope.

Set Implicit Arguments.

(** ** Python numbers *)

Module Py.

Definition float := spec_float.

Definition prec : Z := 53.
Definition emax : Z := 1024.

(** The literal [0.] (and the integer [0] wherever it meets a float). *)
Definition zero : float := S754_zero false.

(** [float(n)] for an integer [n], as the mixed operations [float * int]
    and [float / int] convert their integer operand: the nearest float,
    ties to even (batch sizes and their sums are far from the integers
    Python refuses to convert). *)
Definition of_int (n : Z) : float := binary_normalize prec emax n 0 false.

Definition add (a b : float) : float := SFadd prec emax a b.
Definition mul (a b : float) : float := SFmul prec emax a b.
Definition div (a b : float) : float := SFdiv prec emax a b.

(** [a > b], [a >= b] and [a == b] on floats. *)
Definition gt (a b : float) : bool := SFltb b a.
Definition ge (a b : float) : bool := SFleb b a.
Definition eq (a b : float) : bool := SFeqb a b.

(** The builtin [max(a, b)]: the first argument is kept unless the
    second one compares strictly greater. *)
Definition max (a b : float) : float := if gt b a then b else a.

Definition is_nan (a : float) : bool :=
  match a with S754_nan => true | _ => false end.

(** Exceptions the script meets: the two its own statements can
    raise, and the two the constructor of a data loader answers a bad
    argument with. *)
Inductive Exn : Type :=
| ZeroDivisionError
| NameError
| TypeError
| ValueError.

Inductive Result (A : Type) : Type :=
| Ok (a : A)
| Raise (e : Exn).
Arguments Raise {A} e.

(** [a % b == 0 ] on integers; [%] raises on a zero divisor and takes
    the sign of the divisor otherwise, as [Z.modulo] does. *)
Definition mod_is_zero (a b : Z) : Result bool :=
  if b =? 0 then Raise ZeroDivisionError else Ok (a mod b =? 0).

End Py.

Import Py.

(** ** The metrics accumulator *)

Module AverageMeter.

(** Modelled from the spec: the class [AverageMeter] is imported from
    [nni.nas.pytorch.utils] and is not part of the sources; it is the
    "running average ..., reset per epoch, mutated per batch" of the
    data model: [update(val, n)] adds [val * n] to the sum and [n] to
    the count, and the average is their quotient. *)
Record t : Type := mk {
  val : float;
  avg : float;
  sum : float;
  count : Z
}.

(** [AverageMeter(name)]: every field starts at [0]. *)
Definition new : t := mk zero zero zero 0.

(** [update(val, n)]; the quotient raises when the count is zero. *)
Definition update (m : t) (v : float) (n : Z) : Result t :=
  let s := add (sum m) (mul v (of_int n)) in
  let c := count m + n in
  if c =? 0 then Raise ZeroDivisionError
  else Ok (mk v (div s (of_int c)) s c).

End AverageMeter.

(** The three meters every pass keeps: [losses], [top1] and [top5]. *)
Record Meters : Type := mkMeters {
  losses : AverageMeter.t;
  top1 : AverageMeter.t;
  top5 : AverageMeter.t
}.

Definition new_meters : Meters :=
  mkMeters AverageMeter.new AverageMeter.new AverageMeter.new.

(** ** Configuration *)

Inductive SearchFor : Type := Macro | Micro.

Definition is_micro (s : SearchFor) : bool :=
  match s with Micro => true | Macro => false end.

(** A value of the argument namespace before the script gives it a
    meaning: what [argparse] stores for an argument. *)
Inductive PyVal : Type :=
| PyInt (z : Z)
| PyFloat (f : float)
| PyStr (s : string).

(** [args], the namespace [parse_args] returns. *)
Record Args : Type := mkArgs {
  search_for : SearchFor;
  retrain_epochs : Z;
  batch_size : Z;
  workers : PyVal;
  aux_weight : float;
  grad_clip : float;
  log_frequency : Z;
  num_layers : Z;
  nas_result : string;
  result_file : string
}.

(** ** The world the script runs in *)

(** Which form a call [model(x)] is destructured in. *)
Inductive OutForm : Type := SingleOutput | TwoOutput.

(** *** The framework

    Tensors, parameters and the operations of torch on them are kept
    abstract.  [Params] is what [model.state_dict()] holds (weights and
    buffers), [Grads] the [.grad] fields of the parameters, [OptState]
    the momentum buffers of SGD.  The networks of the modules [macro]
    and [micro] are the two forward functions: a call destructured as
    one tensor and a call destructured as a pair. *)
Class Framework : Type := {
  Params : Type;
  Grads : Type;
  OptState : Type;
  Input : Type;
  Label : Type;
  Logits : Type;
  Loss : Type;
  (** [x.size(0)]. *)
  size0 : Input -> Z;
  (** [logits = model(x)]: parameters, training flag, input. *)
  forward1 : Params -> bool -> Input -> Logits;
  (** [logits, aux_logits = model(x)]. *)
  forward2 : Params -> bool -> Input -> Logits * Logits;
  (** What a forward pass in training mode does to the buffers (running
      statistics); in evaluation mode a forward pass changes nothing. *)
  update_buffers : Params -> Input -> Params;
  (** [criterion(logits, y)], [a + b] and [w * a] on loss tensors,
      [loss.item()]. *)
  criterion : Logits -> Label -> Loss;
  loss_add : Loss -> Loss -> Loss;
  loss_scale : float -> Loss -> Loss;
  loss_item : Loss -> float;
  (** [optimizer.zero_grad()], [loss.backward()] (accumulating into the
      gradients), [clip_grad_norm_(params, max_norm)]. *)
  zero_grad : Grads -> Grads;
  backward : Params -> Grads -> Loss -> Grads;
  clip_grad_norm_ : Grads -> float -> Grads;
  (** [optimizer.step()] of SGD at learning rate [lr]. *)
  sgd_step : float -> OptState -> Params -> Grads -> OptState * Params;
  (** The rate [CosineAnnealingLR(optimizer, T_max, eta_min=0.001)] sets
      when stepping to [last_epoch] from the current rate. *)
  cosine_annealing : Z -> Z -> float -> float;
  (** [accuracy(logits, y, topk=(1, 5))] of the module [utils]: the
      entries ["acc1"] and ["acc5"]. *)
  accuracy : Logits -> Label -> float * float
}.

Section Retrain.

Context {F : Framework}.

Definition Batch : Type := (Input * Label)%type.

(** *** Log records and calls *)

(** The records sent to [logger.info], with the values they format. *)
Inductive LogMsg : Type :=
| LogEpochLR (epoch : Z) (lr : float)
| LogTrainStep (epoch1 total step last : Z) (loss acc1 acc5 : float)
| LogTrainFinal (epoch1 total : Z) (acc1 : float)
| LogValidStep (epoch1 total step last : Z) (loss acc1 acc5 : float)
| LogValidFinal (epoch1 total : Z) (acc1 : float)
| LogFinalBest (best : float).

(** The calls the script issues to its collaborators.  A forward call
    records the form it is destructured in, the training flag of the
    model and whether gradients are enabled. *)
Inductive Event : Type :=
| EvModelTrain
| EvModelEval
| EvZeroGrad
| EvForward (form : OutForm) (training grad : bool)
| EvCriterion (aux : bool)
| EvBackward (l : Loss)
| EvClipGrad (max_norm : float)
| EvOptStep
| EvLrStep
| EvSave (path : string) (sd : Params)
| EvLog (m : LogMsg).

(** What the calls act on. *)
Record State : Type := mkState {
  params : Params;          (* model.state_dict() *)
  training : bool;          (* model.training *)
  grad_enabled : bool;      (* torch.is_grad_enabled() *)
  grads : Grads;
  opt_state : OptState;
  lr : float;               (* optimizer.param_groups[0]["lr"] *)
  last_epoch : Z;           (* lr_scheduler.last_epoch *)
  saved : option Params     (* what torch.save left on disk *)
}.

(** The state together with the calls so far, oldest first. *)
Record World : Type := mkWorld {
  state : State;
  trace : list Event
}.

Definition set_params (p : Params) (s : State) : State :=
  mkState p (training s) (grad_enabled s) (grads s) (opt_state s)
          (lr s) (last_epoch s) (saved s).

Definition set_training (b : bool) (s : State) : State :=
  mkState (params s) b (grad_enabled s) (grads s) (opt_state s)
          (lr s) (last_epoch s) (saved s).

Definition set_grad_enabled (b : bool) (s : State) : State :=
  mkState (params s) (training s) b (grads s) (opt_state s)
          (lr s) (last_epoch s) (saved s).

Definition set_grads (g : Grads) (s : State) : State :=
  mkState (params s) (training s) (grad_enabled s) g (opt_state s)
          (lr s) (last_epoch s) (saved s).

Definition set_opt (o : OptState) (p : Params) (s : State) : State :=
  mkState p (training s) (grad_enabled s) (grads s) o
          (lr s) (last_epoch s) (saved s).

Definition set_lr (e : Z) (r : float) (s : State) : State :=
  mkState (params s) (training s) (grad_enabled s) (grads s) (opt_state s)
          r e (saved s).

Definition set_saved (p : Params) (s : State) : State :=
  mkState (params s) (training s) (grad_enabled s) (grads s) (opt_state s)
          (lr s) (last_epoch s) (Some p).

(** *** Computations: state passing with exceptions

    A computation maps the world to the world it leaves behind and
    either a value or the exception that ended it; what was done before
    an exception stays done. *)
Definition M (A : Type) : Type := World -> World * Result A.

Definition ret {A} (a : A) : M A := fun w => (w, Ok a).

Definition bind {A B} (m : M A) (k : A -> M B) : M B :=
  fun w =>
    match m w with
    | (w1, Ok a) => k a w1
    | (w1, Raise e) => (w1, Raise e)
    end.

Definition lift {A} (r : Result A) : M A := fun w => (w, r).

(** A call: it is recorded, acts on the state and returns a value
    computed from the state it met. *)
Definition call {A} (e : State -> Event) (f : State -> State) (v : State -> A)
  : M A :=
  fun w =>
    (mkWorld (f (state w)) (trace w ++ [e (state w)]), Ok (v (state w))).

Notation "x <- m ;; k" := (bind m (fun x => k))
  (at level 61, m at next level, right associativity).
Notation "m ;;; k" := (bind m (fun _ => k))
  (at level 61, right associativity).

(** *** The framework calls of the script *)

Definition logger_info (m : LogMsg) : M unit :=
  call (fun _ => EvLog m) (fun s => s) (fun _ => tt).

Definition model_train : M unit :=
  call (fun _ => EvModelTrain) (set_training true) (fun _ => tt).

Definition model_eval : M unit :=
  call (fun _ => EvModelEval) (set_training false) (fun _ => tt).

Definition optimizer_zero_grad : M unit :=
  call (fun _ => EvZeroGrad) (fun s => set_grads (zero_grad (grads s)) s)
       (fun _ => tt).

(** A forward pass reads the parameters and, in training mode, moves
    the buffers. *)
Definition after_forward (x : Input) (s : State) : State :=
  if training s then set_params (update_buffers (params s) x) s else s.

Definition model_call1 (x : Input) : M Logits :=
  call (fun s => EvForward SingleOutput (training s) (grad_enabled s))
       (after_forward x)
       (fun s => forward1 (params s) (training s) x).

Definition model_call2 (x : Input) : M (Logits * Logits) :=
  call (fun s => EvForward TwoOutput (training s) (grad_enabled s))
       (after_forward x)
       (fun s => forward2 (params s) (training s) x).

Definition criterion_call (aux : bool) (lg : Logits) (y : Label) : M Loss :=
  call (fun _ => EvCriterion aux) (fun s => s) (fun _ => criterion lg y).

Definition loss_backward (l : Loss) : M unit :=
  call (fun _ => EvBackward l)
       (fun s => set_grads (backward (params s) (grads s) l) s)
       (fun _ => tt).

Definition clip_grad (max_norm : float) : M unit :=
  call (fun _ => EvClipGrad max_norm)
       (fun s => set_grads (clip_grad_norm_ (grads s) max_norm) s)
       (fun _ => tt).

Definition optimizer_step : M unit :=
  call (fun _ => EvOptStep)
       (fun s =>
          let r := sgd_step (lr s) (opt_state s) (params s) (grads s) in
          set_opt (fst r) (snd r) s)
       (fun _ => tt).

Definition lr_scheduler_step (t_max : Z) : M unit :=
  call (fun _ => EvLrStep)
       (fun s =>
          let e := last_epoch s + 1 in
          set_lr e (cosine_annealing t_max e (lr s)) s)
       (fun _ => tt).

(** [torch.save(model.state_dict(), path)]. *)
Definition torch_save (path : string) : M unit :=
  call (fun s => EvSave path (params s)) (fun s => set_saved (params s) s)
       (fun _ => tt).

(** [with torch.no_grad(): body]: gradients are disabled for the body
    and the previous mode is restored on the way out, also when the
    body raises. *)
Definition with_no_grad {A} (body : M A) : M A :=
  fun w =>
    let prev := grad_enabled (state w) in
    let r := body (mkWorld (set_grad_enabled false (state w)) (trace w)) in
    (mkWorld (set_grad_enabled prev (state (fst r))) (trace (fst r)), snd r).

Definition get_lr : M float := fun w => (w, Ok (lr (state w))).

(** *** The two passes *)

(** Lines 56-58 and 88-90: [losses], [top1] and [top5] take the loss
    and the two accuracies of the batch, each weighted by its size. *)
Definition update_meters (ms : Meters) (loss : float) (acc : float * float)
  (bs : Z) : Result Meters :=
  match AverageMeter.update (losses ms) loss bs with
  | Raise e => Raise e
  | Ok l =>
    match AverageMeter.update (top1 ms) (fst acc) bs with
    | Raise e => Raise e
    | Ok t1 =>
      match AverageMeter.update (top5 ms) (snd acc) bs with
      | Raise e => Raise e
      | Ok t5 => Ok (mkMeters l t1 t5)
      end
    end
  end.

(** [step % config.log_frequency == 0 or step == len(loader) - 1]. *)
Definition log_due (config : Args) (step len : Z) : Result bool :=
  match mod_is_zero step (log_frequency config) with
  | Raise e => Raise e
  | Ok true => Ok true
  | Ok false => Ok (step =? len - 1)
  end.

(** Lines 43-46: the forward pass of the training loop. *)
Definition train_forward (search_for : SearchFor) (x : Input)
  : M (Logits * option Logits) :=
  if is_micro search_for then
    p <- model_call2 x ;; ret (fst p, Some (snd p))
  else
    l <- model_call1 x ;; ret (l, None).

(** Lines 47-49: the loss of a training batch.  [aux_logits] is bound
    only on the branch of line 44. *)
Definition train_loss (config : Args) (search_for : SearchFor)
  (logits : Logits) (aux_logits : option Logits) (y : Label) : M Loss :=
  loss <- criterion_call false logits y ;;
  if gt (aux_weight config) zero && is_micro search_for then
    match aux_logits with
    | Some a =>
      la <- criterion_call true a y ;;
      ret (loss_add loss (loss_scale (aux_weight config) la))
    | None => lift (Raise NameError)
    end
  else ret loss.

(** Lines 39-65: the body of the training loop at index [step].  The
    transfers of [x] and [y] to the device change neither the state nor
    the trace and are left out. *)
Definition train_batch (config : Args) (search_for : SearchFor)
  (epoch len : Z) (ms : Meters) (step : Z) (b : Batch) : M Meters :=
  let '(x, y) := b in
  let bs := size0 x in
  optimizer_zero_grad ;;;
  out <- train_forward search_for x ;;
  let '(logits, aux_logits) := out in
  loss <- train_loss config search_for logits aux_logits y ;;
  loss_backward loss ;;;
  clip_grad (grad_clip config) ;;;
  optimizer_step ;;;
  let acc := accuracy logits y in
  ms' <- lift (update_meters ms (loss_item loss) acc bs) ;;
  due <- lift (log_due config step len) ;;
  (if due : bool then
     logger_info (LogTrainStep (epoch + 1) (retrain_epochs config) step (len - 1)
                    (AverageMeter.avg (losses ms')) (AverageMeter.avg (top1 ms'))
                    (AverageMeter.avg (top5 ms')))
   else ret tt) ;;;
  ret ms'.

Fixpoint train_steps (config : Args) (search_for : SearchFor) (epoch len : Z)
  (ms : Meters) (step : Z) (batches : list Batch) : M Meters :=
  match batches with
  | [] => ret ms
  | b :: rest =>
    ms' <- train_batch config search_for epoch len ms step b ;;
    train_steps config search_for epoch len ms' (step + 1) rest
  end.

(** [train(config, train_loader, model, optimizer, criterion, epoch,
    search_for)]; [train_loader] is the list of batches the loader
    yields in this epoch.  The local [cur_step] is written and never
    read, and is left out. *)
Definition train (config : Args) (train_loader : list Batch) (epoch : Z)
  (search_for : SearchFor) : M unit :=
  let len := Z.of_nat (List.length train_loader) in
  cur_lr <- get_lr ;;
  logger_info (LogEpochLR epoch cur_lr) ;;;
  model_train ;;;
  ms <- train_steps config search_for epoch len new_meters 0 train_loader ;;
  logger_info (LogTrainFinal (epoch + 1) (retrain_epochs config)
                 (AverageMeter.avg (top1 ms))).

(** Lines 81-97: the body of the validation loop at index [step]. *)
Definition validate_batch (config : Args) (epoch len : Z) (ms : Meters)
  (step : Z) (b : Batch) : M Meters :=
  let '(x, y) := b in
  let bs := size0 x in
  logits <- model_call1 x ;;
  loss <- criterion_call false logits y ;;
  let acc := accuracy logits y in
  ms' <- lift (update_meters ms (loss_item loss) acc bs) ;;
  due <- lift (log_due config step len) ;;
  (if due : bool then
     logger_info (LogValidStep (epoch + 1) (retrain_epochs config) step (len - 1)
                    (AverageMeter.avg (losses ms')) (AverageMeter.avg (top1 ms'))
                    (AverageMeter.avg (top5 ms')))
   else ret tt) ;;;
  ret ms'.

Fixpoint validate_steps (config : Args) (epoch len : Z) (ms : Meters)
  (step : Z) (batches : list Batch) : M Meters :=
  match batches with
  | [] => ret ms
  | b :: rest =>
    ms' <- validate_batch config epoch len ms step b ;;
    validate_steps config epoch len ms' (step + 1) rest
  end.

(** [validate(config, valid_loader, model, criterion, epoch, cur_step)];
    the argument [cur_step] is not used by the body. *)
Definition validate (config : Args) (valid_loader : list Batch) (epoch : Z)
  (cur_step : Z) : M float :=
  let len := Z.of_nat (List.length valid_loader) in
  model_eval ;;;
  ms <- with_no_grad (validate_steps config epoch len new_meters 0 valid_loader) ;;
  logger_info (LogValidFinal (epoch + 1) (retrain_epochs config)
                 (AverageMeter.avg (top1 ms))) ;;;
  ret (AverageMeter.avg (top1 ms)).

(** *** The epoch loop of the driver

    [train_loader e] is the list of batches the shuffling loader yields
    in epoch [e]; the validation loader yields the same batches in every
    epoch. *)

(** Lines 138-140. *)
Definition train_validate (args : Args) (train_loader : Z -> list Batch)
  (valid_loader : list Batch) (epoch : Z) : M float :=
  train args (train_loader epoch) epoch (search_for args) ;;;
  let cur_step := (epoch + 1) * Z.of_nat (List.length (train_loader epoch)) in
  validate args valid_loader epoch cur_step.

(** Lines 141-145; returns the new [best_top1]. *)
Definition checkpoint (args : Args) (best_top1 top1 : float) : M float :=
  let best_top1 := max best_top1 top1 in
  (if eq top1 best_top1 then torch_save (result_file args) else ret tt) ;;;
  lr_scheduler_step (retrain_epochs args) ;;;
  ret best_top1.

Definition epoch_body (args : Args) (train_loader : Z -> list Batch)
  (valid_loader : list Batch) (best_top1 : float) (epoch : Z) : M float :=
  top1 <- train_validate args train_loader valid_loader epoch ;;
  checkpoint args best_top1 top1.

(** [n] iterations of [for epoch in range(...)] from [epoch] on. *)
Fixpoint epochs (args : Args) (train_loader : Z -> list Batch)
  (valid_loader : list Batch) (best_top1 : float) (epoch : Z) (n : nat)
  : M float :=
  match n with
  | O => ret best_top1
  | S n' =>
    b <- epoch_body args train_loader valid_loader best_top1 epoch ;;
    epochs args train_loader valid_loader b (epoch + 1) n'
  end.

(** Lines 136-147.  The world it starts in is the one lines 117-133
    leave: the model built and moved to the device, the optimizer and
    the schedule fresh, nothing saved. *)
Definition main_loop (args : Args) (train_loader : Z -> list Batch)
  (valid_loader : list Batch) : M unit :=
  best_top1 <- epochs args train_loader valid_loader zero 0
                 (Z.to_nat (retrain_epochs args)) ;;
  logger_info (LogFinalBest best_top1).

End Retrain.

(** ** The command line *)

Module Cli.

(** The [type=] of an argument. *)
Inductive Conv : Type := ConvInt | ConvFloat.

(** One [parser.add_argument("--flag", default=..., type=...,
    choices=...)]. *)
Record Argument : Type := mkArgument {
  flag : string;
  default : PyVal;
  type_ : option Conv;
  choices : option (list string)
}.

(** The literals [0.4] and [5.]. *)
Definition f0_4 : float := Eval vm_compute in div (of_int 2) (of_int 5).
Definition f5_0 : float := Eval vm_compute in of_int 5.

(** The optional arguments the parser declares, in the order of lines
    105-112. *)
Inductive Optional : Type :=
| OptSearchFor
| OptRetrainEpochs
| OptBatchSize
| OptWorkers
| OptAuxWeight
| OptGradClip
| OptLogFrequency
| OptNumLayers.

Definition optional_eqb (a b : Optional) : bool :=
  match a, b with
  | OptSearchFor, OptSearchFor
  | OptRetrainEpochs, OptRetrainEpochs
  | OptBatchSize, OptBatchSize
  | OptWorkers, OptWorkers
  | OptAuxWeight, OptAuxWeight
  | OptGradClip, OptGradClip
  | OptLogFrequency, OptLogFrequency
  | OptNumLayers, OptNumLayers => true
  | _, _ => false
  end.

(** Lines 105-112: the [add_argument] call of each. *)
Definition declared (o : Optional) : Argument :=
  match o with
  | OptSearchFor =>
    mkArgument "--search-for" (PyStr "macro") None (Some ["macro"; "micro"]%string)
  | OptRetrainEpochs => mkArgument "--retrain-epochs" (PyInt 600) (Some ConvInt) None
  | OptBatchSize => mkArgument "--batch-size" (PyInt 128) (Some ConvInt) None
  | OptWorkers => mkArgument "--workers" (PyInt 4) None None
  | OptAuxWeight => mkArgument "--aux-weight" (PyFloat f0_4) (Some ConvFloat) None
  | OptGradClip => mkArgument "--grad-clip" (PyFloat f5_0) (Some ConvFloat) None
  | OptLogFrequency => mkArgument "--log-frequency" (PyInt 10) (Some ConvInt) None
  | OptNumLayers => mkArgument "--num-layers" (PyInt 6) (Some ConvInt) None
  end%string.

(** The command line as [argparse] has matched it against the
    declarations.  Matching option strings is the library's work and is
    not modelled: it resolves each option string, written in full,
    abbreviated to a prefix no other option shares or joined to its
    value by [=], to the argument it names, pairs it with the value
    string it takes, and exits on an unknown or ambiguous option, a
    missing value, [-h] and a number of positional arguments other than
    two.  What is left, and what lines 105-114 decide, is what each
    argument stores: [given] lists the optional arguments in the order
    given, each with its value string, and the two positional ones
    follow. *)
Record CommandLine : Type := mkCommandLine {
  given : list (Optional * string);
  nas_result_arg : string;
  result_file_arg : string
}.

(** The namespace: one value for each declared argument. *)
Definition Namespace : Type := Optional -> PyVal.

Definition defaults : Namespace := fun o => default (declared o).

Definition store (o : Optional) (v : PyVal) (ns : Namespace) : Namespace :=
  fun o' => if optional_eqb o o' then v else ns o'.


Section Parse.

(** Python's [int(s)] and [float(s)] on a string; [None] when they
    raise [ValueError]. *)
Variable py_int : string -> option Z.
Variable py_float : string -> option float.

(** The value stored for an argument given as [raw]: the converter is
    applied when there is one, the string is kept otherwise. *)
Definition convert (a : Argument) (raw : string) : option PyVal :=
  match type_ a with
  | Some ConvInt => option_map PyInt (py_int raw)
  | Some ConvFloat => option_map PyFloat (py_float raw)
  | None => Some (PyStr raw)
  end.

(** The [choices=] test; the one argument with choices has no
    converter, so the value tested is the string given. *)
Definition choice_ok (a : Argument) (raw : string) : bool :=
  match choices a with
  | None => true
  | Some cs => existsb (String.eqb raw) cs
  end.

(** The optional arguments are stored from left to right, so the last
    occurrence of an argument wins; [None] is the parser's error exit
    on a value its converter or its choices refuse. *)
Fixpoint parse_optionals (gs : list (Optional * string)) (ns : Namespace)
  : option Namespace :=
  match gs with
  | [] => Some ns
  | (o, raw) :: rest =>
    match convert (declared o) raw with
    | None => None
    | Some v =>
      if choice_ok (declared o) raw
      then parse_optionals rest (store o v ns) else None
    end
  end.

Definition as_int (v : PyVal) : option Z :=
  match v with PyInt z => Some z | _ => None end.

Definition as_float (v : PyVal) : option float :=
  match v with PyFloat f => Some f | _ => None end.

Definition as_search_for (v : PyVal) : option SearchFor :=
  match v with
  | PyStr s =>
    if String.eqb s "macro" then Some Macro
    else if String.eqb s "micro" then Some Micro else None
  | _ => None
  end.

(** [args = parser.parse_args()]. *)
Definition parse_args (cl : CommandLine) : option Args :=
  match parse_optionals (given cl) defaults with
  | Some ns =>
    match as_search_for (ns OptSearchFor),
          as_int (ns OptRetrainEpochs),
          as_int (ns OptBatchSize),
          as_float (ns OptAuxWeight),
          as_float (ns OptGradClip),
          as_int (ns OptLogFrequency),
          as_int (ns OptNumLayers) with
    | Some sf, Some re, Some bsz, Some aw, Some gc, Some lf, Some nl =>
      Some (mkArgs sf re bsz (ns OptWorkers) aw gc lf nl
              (nas_result_arg cl) (result_file_arg cl))
    | _, _, _, _, _, _, _ => None
    end
  | None => None
  end.



End Parse.





End Cli.

(** ** Reading a trace *)

Section Traces.

Context {F : Framework}.

(** The calls issued between two worlds of one run. *)
Definition since (w w' : World) : list Event :=
  skipn (List.length (trace w)) (trace w').

(** The parameter states written by [torch.save], in order. *)
Definition saves (l : list Event) : list Params :=
  flat_map (fun e => match e with EvSave _ sd => [sd] | _ => [] end) l.

(** The accuracies the validation passes reported as final. *)
Definition valid_finals (l : list Event) : list float :=
  flat_map
    (fun e => match e with EvLog (LogValidFinal _ _ a) => [a] | _ => [] end) l.

(** The steps of a training batch a call belongs to. *)
Inductive Kind : Type :=
| KZeroGrad
| KForward
| KCriterion
| KBackward
| KClip (max_norm : float)
| KStep.

Definition kind_of (e : Event) : list Kind :=
  match e with
  | EvZeroGrad => [KZeroGrad]
  | EvForward _ _ _ => [KForward]
  | EvCriterion _ => [KCriterion]
  | EvBackward _ => [KBackward]
  | EvClipGrad c => [KClip c]
  | EvOptStep => [KStep]
  | _ => []
  end.

Definition kinds (l : list Event) : list Kind := flat_map kind_of l.

(** The marks of the driver's phases: a training pass opens with its
    learning-rate record and [model.train()] and closes with its final
    record; a validation pass opens with [model.eval()] and closes with
    its final record. *)
Inductive Phase : Type :=
| PhTrainBegin (epoch : Z)
| PhModelTrain
| PhTrainEnd (epoch1 : Z)
| PhModelEval
| PhValidEnd (epoch1 : Z)
| PhSave
| PhLrStep
| PhFinalBest.

Definition phase_of (e : Event) : list Phase :=
  match e with
  | EvLog (LogEpochLR e _) => [PhTrainBegin e]
  | EvModelTrain => [PhModelTrain]
  | EvLog (LogTrainFinal e1 _ _) => [PhTrainEnd e1]
  | EvModelEval => [PhModelEval]
  | EvLog (LogValidFinal e1 _ _) => [PhValidEnd e1]
  | EvSave _ _ => [PhSave]
  | EvLrStep => [PhLrStep]
  | EvLog (LogFinalBest _) => [PhFinalBest]
  | _ => []
  end.

Definition phases (l : list Event) : list Phase := flat_map phase_of l.

(** The calls made inside the body of a batch loop. *)
Definition batch_event (e : Event) : bool :=
  match e with
  | EvZeroGrad | EvForward _ _ _ | EvCriterion _ | EvBackward _
  | EvClipGrad _ | EvOptStep
  | EvLog (LogTrainStep _ _ _ _ _ _ _) | EvLog (LogValidStep _ _ _ _ _ _ _) => true
  | _ => false
  end.

Definition step_log (e : Event) : bool :=
  match e with
  | EvLog (LogTrainStep _ _ _ _ _ _ _) | EvLog (LogValidStep _ _ _ _ _ _ _) => true
  | _ => false
  end.

(** The calls a validation batch may make. *)
Definition valid_event (e : Event) : bool :=
  match e with
  | EvForward SingleOutput false false | EvCriterion false
  | EvLog (LogValidStep _ _ _ _ _ _ _) => true
  | _ => false
  end.

(** The calls that compute no gradient and touch no parameter: the
    switch to evaluation mode, a single-output forward pass in
    evaluation mode with gradients disabled, the primary criterion, a
    log record. *)
Definition no_grad_call (e : Event) : bool :=
  match e with
  | EvModelEval | EvForward SingleOutput false false | EvCriterion false
  | EvLog _ => true
  | _ => false
  end.

(** A forward call is made with training flag [tr] and gradient mode
    [g]; any other call passes. *)
Definition forward_flags (tr g : bool) (e : Event) : bool :=
  match e with
  | EvForward _ t g' => Bool.eqb t tr && Bool.eqb g' g
  | _ => true
  end.

(** How many optimizer steps a list of calls holds. *)
Definition opt_steps (l : list Event) : nat :=
  List.length (filter (fun e => match e with EvOptStep => true | _ => false end) l).

End Traces.

(** ** What the claims are stated against *)

Section Specs.

Context {F : Framework}.

(** Section 4.1 on the forward pass and the loss of a training batch:
    the two-output form for the micro family, the single-output form
    for the macro family; the primary loss, plus [aux_weight] times the
    auxiliary loss when the family is micro and the weight positive. *)
Definition uses_aux (config : Args) (search_for : SearchFor) : bool :=
  is_micro search_for && gt (aux_weight config) zero.

Definition batch_form (search_for : SearchFor) : OutForm :=
  if is_micro search_for then TwoOutput else SingleOutput.

Definition primary_logits (search_for : SearchFor) (p : Params) (tr : bool)
  (x : Input) : Logits :=
  if is_micro search_for then fst (forward2 p tr x) else forward1 p tr x.

Definition primary_loss (search_for : SearchFor) (p : Params) (tr : bool)
  (x : Input) (y : Label) : Loss :=
  criterion (primary_logits search_for p tr x) y.

Definition auxiliary_loss (p : Params) (tr : bool) (x : Input) (y : Label)
  : Loss :=
  criterion (snd (forward2 p tr x)) y.

Definition batch_loss (config : Args) (search_for : SearchFor) (p : Params)
  (tr : bool) (x : Input) (y : Label) : Loss :=
  if uses_aux config search_for then
    loss_add (primary_loss search_for p tr x y)
             (loss_scale (aux_weight config) (auxiliary_loss p tr x y))
  else primary_loss search_for p tr x y.

(** The calls of one training batch met in state [s]. *)
Definition batch_calls (config : Args) (search_for : SearchFor) (s : State)
  (x : Input) (y : Label) : list Event :=
  [EvZeroGrad; EvForward (batch_form search_for) (training s) (grad_enabled s);
   EvCriterion false]
  ++ (if uses_aux config search_for then [EvCriterion true] else [])
  ++ [EvBackward (batch_loss config search_for (params s) (training s) x y);
      EvClipGrad (grad_clip config); EvOptStep].

(** The steps of one training batch, in the order of section 4.1. *)
Definition batch_kinds (config : Args) (search_for : SearchFor) : list Kind :=
  [KZeroGrad; KForward; KCriterion]
  ++ (if uses_aux config search_for then [KCriterion] else [])
  ++ [KBackward; KClip (grad_clip config); KStep].

(** The average of the values [v] weighted by the sizes [n], computed
    as the meter computes it: the sum of the [v * n] from the left,
    divided by the sum of the [n]; [0] when there is no value. *)
Definition weighted_sum (vals : list (float * Z)) : float :=
  fold_left (fun s vn => add s (mul (fst vn) (of_int (snd vn)))) vals zero.

Definition total_size (vals : list (float * Z)) : Z :=
  fold_left (fun c vn => c + snd vn) vals 0.

Definition weighted_average (vals : list (float * Z)) : float :=
  match vals with
  | [] => zero
  | _ => div (weighted_sum vals) (of_int (total_size vals))
  end.

(** The top-1 accuracy of a validation batch under parameters [p], with
    the size of the batch. *)
Definition valid_acc1 (p : Params) (b : Batch) : float * Z :=
  (fst (accuracy (forward1 p false (fst b)) (snd b)), size0 (fst b)).

(** A meter taking the values [vals] one after the other. *)
Fixpoint meter_steps (m : AverageMeter.t) (vals : list (float * Z))
  : Result AverageMeter.t :=
  match vals with
  | [] => Ok m
  | vn :: rest =>
    match AverageMeter.update m (fst vn) (snd vn) with
    | Raise e => Raise e
    | Ok m' => meter_steps m' rest
    end
  end.

(** The end of a batch once the meters are updated: lines 60 and 92. *)
Definition finish_batch (config : Args) (step len : Z) (r : Result Meters)
  : Result Meters :=
  match r with
  | Raise e => Raise e
  | Ok ms' =>
    match log_due config step len with
    | Raise e => Raise e
    | Ok _ => Ok ms'
    end
  end.

Definition meters_nonneg (ms : Meters) : Prop :=
  0 <= AverageMeter.count (losses ms)
  /\ 0 <= AverageMeter.count (top1 ms)
  /\ 0 <= AverageMeter.count (top5 ms).

(** Every batch of a loader holds at least one sample. *)
Definition nonempty_batches (batches : list Batch) : Prop :=
  Forall (fun b : Batch => 0 < size0 (fst b)) batches.

(** The three meters of a pass have all counted [c] samples. *)
Definition meters_count (ms : Meters) (c : Z) : Prop :=
  AverageMeter.count (losses ms) = c
  /\ AverageMeter.count (top1 ms) = c
  /\ AverageMeter.count (top5 ms) = c.

(** The end of a batch raises when the samples counted so far, this
    batch included, are [0] (the quotient of the meters) or when the
    log frequency [lf] is [0] (the remainder of line 60). *)
Definition batch_raises (lf count : Z) (b : Batch) : bool :=
  (count + size0 (fst b) =? 0) || (lf =? 0).

(** How many batches of a loader a pass begins, [count] samples having
    been counted before: every batch up to the first one whose end
    raises, that one included. *)
Fixpoint batches_begun (lf count : Z) (batches : list Batch) : nat :=
  match batches with
  | [] => O
  | b :: rest =>
    if batch_raises lf count b then 1%nat
    else S (batches_begun lf (count + size0 (fst b)) rest)
  end.

(** No batch of the loader raises at its end. *)
Fixpoint batches_pass (lf count : Z) (batches : list Batch) : bool :=
  match batches with
  | [] => true
  | b :: rest =>
    negb (batch_raises lf count b)
    && batches_pass lf (count + size0 (fst b)) rest
  end.

(** Which epochs checkpoint, from the best accuracy before them and
    their validation accuracies. *)
Fixpoint wrote_flags (best : float) (tops : list float) : list bool :=
  match tops with
  | [] => []
  | t :: rest => ge t best :: wrote_flags (max best t) rest
  end.

(** The marks of epoch [e], with or without a checkpoint. *)
Definition epoch_phases (e : Z) (wrote : bool) : list Phase :=
  [PhTrainBegin e; PhModelTrain; PhTrainEnd (e + 1);
   PhModelEval; PhValidEnd (e + 1)]
  ++ (if wrote then [PhSave] else []) ++ [PhLrStep].

Fixpoint run_phases (e : Z) (wrote : list bool) : list Phase :=
  match wrote with
  | [] => []
  | b :: rest => epoch_phases e b ++ run_phases (e + 1) rest
  end.

(** The schedule after [n] steps from epoch counter [e] and rate [r]:
    each step moves the counter by one and asks the cosine rule for the
    next rate. *)
Fixpoint schedule_after (t_max : Z) (e : Z) (r : float) (n : nat) : Z * float :=
  match n with
  | O => (e, r)
  | S n' => schedule_after t_max (e + 1) (cosine_annealing t_max (e + 1) r) n'
  end.

End Specs.

(** ** A small framework to run the script on

    Parameters are a counter every optimizer step moves by the clipped
    gradient; a batch is its size and a label, and a prediction is right
    once the counter has reached the label. *)

Module Toy.

Definition half : float := Eval vm_compute in div (of_int 1) (of_int 2).
Definition one : float := Eval vm_compute in of_int 1.

#[local] Instance framework : Framework := {|
  Params := Z;
  Grads := Z;
  OptState := unit;
  Input := Z;
  Label := Z;
  Logits := Z;
  Loss := float;
  size0 := fun x => x;
  forward1 := fun p _ _ => p;
  forward2 := fun p _ _ => (p, p + 1);
  update_buffers := fun p _ => p;
  criterion := fun lg y => of_int (y - lg);
  loss_add := add;
  loss_scale := mul;
  loss_item := fun l => l;
  zero_grad := fun _ => 0;
  backward := fun _ g _ => g + 1;
  clip_grad_norm_ := fun g _ => Z.min g 1;
  sgd_step := fun _ o p g => (o, p + g);
  cosine_annealing := fun _ _ r => r;
  accuracy := fun lg y => (if y <=? lg then half else zero, one)
|}.

Definition world0 : World :=
  mkWorld (mkState (0 : Params) true true (0 : Grads) (tt : OptState)
                   Cli.f5_0 0 None) [].

Definition args0 (sf : SearchFor) (n lf : Z) : Args :=
  mkArgs sf n 2 (PyInt 4) Cli.f0_4 Cli.f5_0 lf 6 "nas.json" "out.pt".

(** One training batch per epoch; validation on two batches the model
    gets right from the second epoch on. *)
Definition train_loader (_ : Z) : list Batch := [(2, 1)].
Definition valid_loader : list Batch := [(2, 2); (1, 2)].

(** A run of three epochs of the micro family, logging every tenth
    step: the worlds it goes through and the passes of each epoch. *)
Definition args3 : Args := args0 Micro 3 10.

Abbreviation run_k k :=
  (epochs args3 train_loader valid_loader zero 0 k world0).

Abbreviation world_k k := (fst (run_k k)).

Abbreviation passes_k k :=
  (train_validate args3 train_loader valid_loader (Z.of_nat k) (world_k k)).

Abbreviation passes_0 :=
  (train_validate args3 train_loader valid_loader 0 world0).

Abbreviation main3 :=
  (main_loop args3 train_loader valid_loader world0).

(** The same run with a log frequency of zero, and a world that shares
    only its parameters with [world0]. *)
Definition args_lf0 : Args := args0 Macro 2 0.

Definition world0' : World :=
  mkWorld (mkState (0 : Params) false true (5 : Grads) (tt : OptState)
                   Cli.f0_4 7 (Some 1)) [].

(** The converters of the command line on a few literals. *)
Definition py_int (s : string) : option Z :=
  if String.eqb s "8" then Some 8
  else if String.eqb s "3" then Some 3 else None.

Definition py_float (s : string) : option float :=
  if String.eqb s "0.5" then Some half else None.

End Toy.

(** Unfolds the calls of a computation down to worlds and results. *)
Ltac run :=
  unfold bind, ret, lift, logger_info, model_train, model_eval,
    optimizer_zero_grad, model_call1, model_call2, criterion_call,
    loss_backward, clip_grad, optimizer_step, lr_scheduler_step, torch_save,
    get_lr, call; simpl.

(** ** Comparisons of floats *)

Lemma SFcompare_antisym (x y : float) :
  SFcompare y x = option_map CompOpp (SFcompare x y).
Proof.
  destruct x as [sx | sx | | sx mx ex], y as [sy | sy | | sy my ey];
    simpl; try reflexivity;
    try (destruct sx; reflexivity); try (destruct sy; reflexivity);
    try (destruct sx, sy; reflexivity).
  destruct sx, sy; simpl; try reflexivity;
    rewrite (Z.compare_antisym ex ey);
    destruct (ex ?= ey) eqn:E; simpl; try reflexivity;
    rewrite (Pos.compare_cont_antisym mx my Eq); reflexivity.
Qed.

Lemma SFcompare_refl (x : float) :
  is_nan x = false -> SFcompare x x = Some Eq.
Proof.
  destruct x as [s | s | | s m e]; simpl; intros H;
    try discriminate; try reflexivity.
  - destruct s; reflexivity.
  - rewrite Z.compare_refl, Pos.compare_cont_refl. destruct s; reflexivity.
Qed.

Lemma SFcompare_some_not_nan (x y : float) (c : comparison) :
  SFcompare x y = Some c -> is_nan x = false /\ is_nan y = false.
Proof.
  destruct x, y; simpl; intros H; try discriminate; split; reflexivity.
Qed.

(** Line 142 after line 141: the test [top1 == max(best_top1, top1)] is
    the test [top1 >= best_top1], on every pair of floats. *)
Lemma eq_max_ge (best t : float) : eq t (max best t) = ge t best.
Proof.
  unfold eq, max, gt, ge, SFeqb, SFltb, SFleb.
  destruct (SFcompare best t) as [c |] eqn:E.
  - destruct (SFcompare_some_not_nan _ _ E) as [_ Ht].
    destruct c.
    + rewrite (SFcompare_antisym best t), E. reflexivity.
    + rewrite (SFcompare_refl _ Ht). reflexivity.
    + rewrite (SFcompare_antisym best t), E. reflexivity.
  - rewrite (SFcompare_antisym best t), E. reflexivity.
Qed.

Lemma max_cases (best t : float) :
  (gt t best = true /\ max best t = t) \/ (gt t best = false /\ max best t = best).
Proof.
  unfold max. destruct (gt t best); [left | right]; split; reflexivity.
Qed.

Lemma gt_ge (a b : float) : gt a b = true -> ge a b = true.
Proof.
  unfold gt, ge, SFltb, SFleb.
  destruct (SFcompare b a) as [[ | | ] |]; intros H; try discriminate; reflexivity.
Qed.

Lemma gt_not_nan (a b : float) : gt a b = true -> is_nan a = false.
Proof.
  unfold gt, SFltb. destruct (SFcompare b a) as [c |] eqn:E; try discriminate.
  intros _. apply (SFcompare_some_not_nan _ _ E).
Qed.

Lemma ge_refl (a : float) : is_nan a = false -> ge a a = true.
Proof.
  intros H. unfold ge, SFleb. rewrite (SFcompare_refl _ H). reflexivity.
Qed.

Lemma max_not_nan (best t : float) :
  is_nan best = false -> is_nan (max best t) = false.
Proof.
  intros H. destruct (max_cases best t) as [[G ->] | [_ ->]]; auto.
  apply (gt_not_nan _ _ G).
Qed.

Lemma max_ge_best (best t : float) :
  is_nan best = false -> ge (max best t) best = true.
Proof.
  intros H. destruct (max_cases best t) as [[G ->] | [_ ->]].
  - apply gt_ge, G.
  - apply ge_refl, H.
Qed.

(** ** Runs of the two passes *)

Unset Implicit Arguments.

Section Runs.

Context {F : Framework}.

Lemma pair_snd_eq {A B : Type} (p : A * B) (b : B) :
  snd p = b -> p = (fst p, b).
Proof. destruct p. simpl. intros ->. reflexivity. Qed.

Lemma since_app (w w' : World) (l : list Event) :
  trace w' = trace w ++ l -> since w w' = l.
Proof.
  intros H. unfold since. rewrite H. clear H.
  induction (trace w) as [| e t IH]; simpl; [reflexivity | exact IH].
Qed.

Lemma train_batch_trace (config : Args) (sf : SearchFor) (epoch len : Z)
  (ms : Meters) (step : Z) (x : Input) (y : Label) (w : World) :
  exists logs,
    trace (fst (train_batch config sf epoch len ms step (x, y) w)) =
      trace w ++ batch_calls config sf (state w) x y ++ logs
    /\ forallb step_log logs = true.
Proof.
  unfold train_batch, train_forward, train_loss, batch_calls, batch_loss,
    uses_aux, batch_form, primary_loss, primary_logits, auxiliary_loss.
  destruct sf, (gt (aux_weight config) zero); run;
    destruct (update_meters _ _ _ _); simpl;
    try destruct (log_due _ _ _) as [[|] |]; simpl;
    rewrite <- ?app_assoc; simpl.
  all: eexists; split; reflexivity.
Qed.

Lemma step_log_batch_event (l : list Event) :
  forallb step_log l = true -> forallb batch_event l = true.
Proof.
  induction l as [| e l IH]; simpl; auto.
  intros H. apply andb_prop in H. destruct H as [He Hl].
  rewrite (IH Hl), andb_true_r.
  destruct e; try discriminate. destruct m; try discriminate; reflexivity.
Qed.

Lemma step_log_kinds (l : list Event) :
  forallb step_log l = true -> kinds l = [].
Proof.
  induction l as [| e l IH]; simpl; auto.
  intros H. apply andb_prop in H. destruct H as [He Hl].
  rewrite (IH Hl). destruct e; try discriminate. reflexivity.
Qed.

Lemma batch_calls_events (config : Args) (sf : SearchFor) (s : State)
  (x : Input) (y : Label) :
  forallb batch_event (batch_calls config sf s x y) = true
  /\ kinds (batch_calls config sf s x y) = batch_kinds config sf.
Proof.
  unfold batch_calls, batch_kinds.
  destruct (uses_aux config sf); split; reflexivity.
Qed.

Lemma kinds_app (a b : list Event) : kinds (a ++ b) = kinds a ++ kinds b.
Proof. apply flat_map_app. Qed.

Lemma train_steps_cons (config : Args) (sf : SearchFor) (epoch len : Z)
  (ms : Meters) (step : Z) (b : Batch) (rest : list Batch) (w : World) :
  train_steps config sf epoch len ms step (b :: rest) w =
  match train_batch config sf epoch len ms step b w with
  | (w1, Ok ms1) => train_steps config sf epoch len ms1 (step + 1) rest w1
  | (w1, Raise e) => (w1, Raise e)
  end.
Proof. reflexivity. Qed.

(** The calls of a training loop: whole batches, one after the other;
    all the batches when the loop returns. *)
Lemma train_steps_trace (config : Args) (sf : SearchFor) (epoch len : Z)
  (batches : list Batch) :
  forall (ms : Meters) (step : Z) (w : World),
  exists (l : list Event) (k : nat),
    trace (fst (train_steps config sf epoch len ms step batches w)) =
      trace w ++ l
    /\ forallb batch_event l = true
    /\ kinds l = List.concat (repeat (batch_kinds config sf) k)
    /\ (k <= List.length batches)%nat
    /\ (forall ms', snd (train_steps config sf epoch len ms step batches w)
                     = Ok ms' -> k = List.length batches).
Proof.
  induction batches as [| [x y] rest IH]; intros ms step w.
  - exists [], O. simpl. rewrite app_nil_r. repeat split; auto.
  - rewrite train_steps_cons.
    destruct (train_batch_trace config sf epoch len ms step x y w)
      as [logs [Ht Hl]].
    destruct (batch_calls_events config sf (state w) x y) as [Hb Hk].
    destruct (train_batch config sf epoch len ms step (x, y) w)
      as [w1 [ms1 | e]]; simpl fst in Ht.
    + destruct (IH ms1 (step + 1) w1) as [l [k [H1 [H2 [H3 [H4 H5]]]]]].
      exists ((batch_calls config sf (state w) x y ++ logs) ++ l), (S k).
      rewrite H1, Ht, <- !app_assoc. split; [reflexivity |]. repeat split.
      * rewrite !forallb_app, Hb, H2, (step_log_batch_event _ Hl). reflexivity.
      * rewrite !kinds_app, Hk, H3, (step_log_kinds _ Hl). reflexivity.
      * simpl. lia.
      * intros ms' E. simpl. f_equal. eapply H5, E.
    + exists (batch_calls config sf (state w) x y ++ logs), 1%nat.
      simpl fst. rewrite Ht. split; [reflexivity |]. repeat split.
      * rewrite forallb_app, Hb, (step_log_batch_event _ Hl). reflexivity.
      * rewrite kinds_app, Hk, (step_log_kinds _ Hl). simpl.
        rewrite app_nil_r. reflexivity.
      * simpl. lia.
      * intros ms' E. discriminate E.
Qed.

Lemma train_batch_result (config : Args) (sf : SearchFor) (epoch len : Z)
  (ms : Meters) (step : Z) (x : Input) (y : Label) (w : World) :
  snd (train_batch config sf epoch len ms step (x, y) w) =
  finish_batch config step len
    (update_meters ms
       (loss_item (batch_loss config sf (params (state w))
                     (training (state w)) x y))
       (accuracy (primary_logits sf (params (state w)) (training (state w)) x) y)
       (size0 x)).
Proof.
  unfold train_batch, train_forward, train_loss, batch_loss, finish_batch,
    uses_aux, primary_loss, primary_logits, auxiliary_loss.
  destruct sf, (gt (aux_weight config) zero); run;
    destruct (update_meters _ _ _ _); simpl; try reflexivity;
    destruct (log_due _ _ _) as [[|] |]; reflexivity.
Qed.

Lemma train_trace (config : Args) (loader : list Batch) (epoch : Z)
  (sf : SearchFor) (w : World) :
  exists (l : list Event) (k : nat) (tail : list Event),
    trace (fst (train config loader epoch sf w)) =
      trace w ++ EvLog (LogEpochLR epoch (lr (state w))) :: EvModelTrain
              :: l ++ tail
    /\ forallb batch_event l = true
    /\ kinds l = List.concat (repeat (batch_kinds config sf) k)
    /\ (k <= List.length loader)%nat
    /\ match snd (train config loader epoch sf w) with
       | Ok _ =>
         k = List.length loader
         /\ exists a, tail = [EvLog (LogTrainFinal (epoch + 1)
                                       (retrain_epochs config) a)]
       | Raise _ => tail = []
       end.
Proof.
  unfold train. run.
  match goal with
  | |- context [train_steps ?c ?s ?e ?n ?m ?i ?b ?w0] =>
    destruct (train_steps_trace c s e n b m i w0)
      as [l [k [H1 [H2 [H3 [H4 H5]]]]]];
    destruct (train_steps c s e n m i b w0) as [w1 [ms1 | ex]]
  end; simpl in H1 |- *.
  - exists l, k. eexists. rewrite H1, <- !app_assoc. simpl.
    split; [reflexivity |]. repeat split; eauto. eapply H5. reflexivity.
  - exists l, k, []. rewrite H1, <- !app_assoc, app_nil_r. simpl.
    repeat split; auto.
Qed.

(** *** The validation pass *)

Lemma validate_batch_result (config : Args) (epoch len : Z) (ms : Meters)
  (step : Z) (x : Input) (y : Label) (w : World) :
  snd (validate_batch config epoch len ms step (x, y) w) =
  finish_batch config step len
    (update_meters ms
       (loss_item (criterion (forward1 (params (state w)) (training (state w)) x) y))
       (accuracy (forward1 (params (state w)) (training (state w)) x) y)
       (size0 x)).
Proof.
  unfold validate_batch, finish_batch. run.
  destruct (update_meters _ _ _ _); simpl; try reflexivity.
  destruct (log_due _ _ _) as [[|] |]; reflexivity.
Qed.

(** In evaluation mode and without gradients a validation batch leaves
    the state as it is; it makes a forward call, a criterion call and at
    most one log record. *)
Lemma validate_batch_run (config : Args) (epoch len : Z) (ms : Meters)
  (step : Z) (x : Input) (y : Label) (w : World) :
  training (state w) = false ->
  grad_enabled (state w) = false ->
  exists l,
    fst (validate_batch config epoch len ms step (x, y) w) =
      mkWorld (state w) (trace w ++ l)
    /\ forallb valid_event l = true.
Proof.
  intros Ht Hg. unfold validate_batch. run.
  unfold after_forward. rewrite Ht, Hg.
  destruct (update_meters _ _ _ _); simpl;
    try destruct (log_due _ _ _) as [[|] |]; simpl;
    rewrite <- ?app_assoc; simpl; eexists; split; reflexivity.
Qed.

Lemma validate_steps_cons (config : Args) (epoch len : Z) (ms : Meters)
  (step : Z) (b : Batch) (rest : list Batch) (w : World) :
  validate_steps config epoch len ms step (b :: rest) w =
  match validate_batch config epoch len ms step b w with
  | (w1, Ok ms1) => validate_steps config epoch len ms1 (step + 1) rest w1
  | (w1, Raise e) => (w1, Raise e)
  end.
Proof. reflexivity. Qed.

Lemma validate_steps_run (config : Args) (epoch len : Z)
  (batches : list Batch) :
  forall (ms : Meters) (step : Z) (w : World),
  training (state w) = false ->
  grad_enabled (state w) = false ->
  exists l,
    fst (validate_steps config epoch len ms step batches w) =
      mkWorld (state w) (trace w ++ l)
    /\ forallb valid_event l = true.
Proof.
  induction batches as [| [x y] rest IH]; intros ms step w Ht Hg.
  - exists []. simpl. rewrite app_nil_r. destruct w; auto.
  - rewrite validate_steps_cons.
    destruct (validate_batch_run config epoch len ms step x y w Ht Hg)
      as [l [H1 H2]].
    destruct (validate_batch config epoch len ms step (x, y) w)
      as [w1 [ms1 | e]]; simpl in H1; subst w1.
    + destruct (IH ms1 (step + 1) (mkWorld (state w) (trace w ++ l)) Ht Hg)
        as [l' [H3 H4]].
      exists (l ++ l'). rewrite H3. simpl. rewrite app_assoc, forallb_app, H2, H4.
      auto.
    + exists l. auto.
Qed.

(** The [top1] meter of a validation loop takes the top-1 accuracy of
    each batch in turn, weighted by the size of the batch. *)
Lemma validate_steps_top1 (config : Args) (epoch len : Z)
  (batches : list Batch) :
  forall (ms : Meters) (step : Z) (w : World) (ms' : Meters),
  training (state w) = false ->
  grad_enabled (state w) = false ->
  snd (validate_steps config epoch len ms step batches w) = Ok ms' ->
  meter_steps (top1 ms) (map (valid_acc1 (params (state w))) batches)
  = Ok (top1 ms').
Proof.
  induction batches as [| [x y] rest IH]; intros ms step w ms' Ht Hg E.
  - simpl in E. inversion E. reflexivity.
  - rewrite validate_steps_cons in E.
    destruct (validate_batch_run config epoch len ms step x y w Ht Hg)
      as [l [H1 H2]].
    pose proof (validate_batch_result config epoch len ms step x y w) as R.
    destruct (validate_batch config epoch len ms step (x, y) w)
      as [w1 [ms1 | e]]; simpl in H1, R; subst w1; [| discriminate E].
    apply (IH ms1 (step + 1) (mkWorld (state w) (trace w ++ l)) ms' Ht Hg) in E.
    simpl in E |- *.
    unfold valid_acc1 at 1. simpl. rewrite Ht in R.
    unfold finish_batch, update_meters in R.
    destruct (AverageMeter.update (losses ms) _ _); [| discriminate R].
    destruct (AverageMeter.update (top1 ms) _ _) as [t1 |]; [| discriminate R].
    destruct (AverageMeter.update (top5 ms) _ _); [| discriminate R].
    destruct (log_due _ _ _); [| discriminate R].
    inversion R. subst ms1. exact E.
Qed.

Lemma validate_run (config : Args) (loader : list Batch) (epoch cs : Z)
  (w : World) :
  exists (l tail : list Event),
    fst (validate config loader epoch cs w) =
      mkWorld (set_training false (state w))
              (trace w ++ EvModelEval :: l ++ tail)
    /\ forallb valid_event l = true
    /\ match snd (validate config loader epoch cs w) with
       | Ok v => tail = [EvLog (LogValidFinal (epoch + 1)
                                  (retrain_epochs config) v)]
       | Raise _ => tail = []
       end.
Proof.
  unfold validate, with_no_grad. run.
  match goal with
  | |- context [validate_steps ?c ?e ?n ?m ?i ?b ?w0] =>
    destruct (validate_steps_run c e n b m i w0 eq_refl eq_refl) as [l [H1 H2]];
    destruct (validate_steps c e n m i b w0) as [w1 [ms1 | ex]]
  end; simpl in H1 |- *; subst w1; simpl.
  - exists l. eexists. rewrite <- !app_assoc. simpl.
    split; [reflexivity |]. split; [exact H2 | reflexivity].
  - exists l, []. rewrite <- !app_assoc, app_nil_r. simpl.
    split; [reflexivity |]. split; [exact H2 | reflexivity].
Qed.

Lemma validate_result (config : Args) (loader : list Batch) (epoch cs : Z)
  (w : World) (v : float) :
  snd (validate config loader epoch cs w) = Ok v ->
  exists m,
    meter_steps AverageMeter.new (map (valid_acc1 (params (state w))) loader)
    = Ok m
    /\ v = AverageMeter.avg m.
Proof.
  unfold validate, with_no_grad. run.
  match goal with
  | |- context [validate_steps ?c ?e ?n ?m ?i ?b ?w0] =>
    pose proof (fun ms' => validate_steps_top1 c e n b m i w0 ms' eq_refl eq_refl)
      as T;
    destruct (validate_steps c e n m i b w0) as [w1 [ms1 | ex]]
  end; simpl; intros E; [| discriminate E].
  inversion E. exists (top1 ms1). split; [| reflexivity].
  apply (T ms1). reflexivity.
Qed.

(** *** The average a meter holds *)

Lemma meter_steps_fields (vals : list (float * Z)) :
  forall m m',
  meter_steps m vals = Ok m' ->
  AverageMeter.sum m' =
    fold_left (fun s vn => add s (mul (fst vn) (of_int (snd vn)))) vals
              (AverageMeter.sum m)
  /\ AverageMeter.count m' =
     fold_left (fun c vn => c + snd vn) vals (AverageMeter.count m)
  /\ (vals <> [] ->
      AverageMeter.avg m' =
        div (AverageMeter.sum m') (of_int (AverageMeter.count m'))).
Proof.
  induction vals as [| [v n] rest IH]; intros m m' E; simpl in E.
  - inversion E. repeat split; auto. intros H. contradiction H. reflexivity.
  - unfold AverageMeter.update in E. simpl in E.
    destruct (AverageMeter.count m + n =? 0); [discriminate E |].
    destruct (IH _ _ E) as [Hs [Hc Ha]]. simpl in Hs, Hc.
    split; [exact Hs |]. split; [exact Hc |]. intros _.
    destruct rest as [| vn rest'].
    + simpl in E. inversion E. reflexivity.
    + apply Ha. discriminate.
Qed.

Lemma meter_steps_average (vals : list (float * Z)) (m : AverageMeter.t) :
  meter_steps AverageMeter.new vals = Ok m ->
  AverageMeter.avg m = weighted_average vals.
Proof.
  intros E. destruct (meter_steps_fields vals _ _ E) as [Hs [Hc Ha]].
  unfold weighted_average, weighted_sum, total_size.
  destruct vals as [| vn rest].
  - simpl in E. inversion E. reflexivity.
  - rewrite Ha by discriminate. rewrite Hs, Hc. reflexivity.
Qed.

(** *** When the passes return *)

Lemma update_ok (m : AverageMeter.t) (v : float) (n : Z) :
  0 <= AverageMeter.count m -> 0 < n ->
  exists m', AverageMeter.update m v n = Ok m' /\ 0 <= AverageMeter.count m'.
Proof.
  intros Hc Hn. unfold AverageMeter.update.
  destruct (AverageMeter.count m + n =? 0) eqn:E.
  - apply Z.eqb_eq in E. lia.
  - eexists. split; [reflexivity |]. simpl. lia.
Qed.

Lemma update_meters_ok (ms : Meters) (l : float) (a : float * float) (n : Z) :
  meters_nonneg ms -> 0 < n ->
  exists ms', update_meters ms l a n = Ok ms' /\ meters_nonneg ms'.
Proof.
  intros [H1 [H2 H3]] Hn. unfold update_meters.
  destruct (update_ok (losses ms) l n H1 Hn) as [m1 [-> C1]].
  destruct (update_ok (top1 ms) (fst a) n H2 Hn) as [m2 [-> C2]].
  destruct (update_ok (top5 ms) (snd a) n H3 Hn) as [m3 [-> C3]].
  eexists. split; [reflexivity |]. repeat split; assumption.
Qed.

Lemma finish_batch_ok (config : Args) (step len : Z) (ms : Meters)
  (l : float) (a : float * float) (n : Z) :
  log_frequency config <> 0 -> meters_nonneg ms -> 0 < n ->
  exists ms',
    finish_batch config step len (update_meters ms l a n) = Ok ms'
    /\ meters_nonneg ms'.
Proof.
  intros Hf Hm Hn.
  destruct (update_meters_ok ms l a n Hm Hn) as [ms' [-> Hm']].
  exists ms'. split; [| exact Hm'].
  unfold finish_batch, log_due, mod_is_zero.
  destruct (log_frequency config =? 0) eqn:E.
  - apply Z.eqb_eq in E. contradiction.
  - destruct (step mod log_frequency config =? 0); reflexivity.
Qed.

Lemma new_meters_nonneg : meters_nonneg new_meters.
Proof. unfold meters_nonneg. simpl. lia. Qed.

Lemma validate_steps_ok (config : Args) (epoch len : Z) (batches : list Batch) :
  log_frequency config <> 0 ->
  nonempty_batches batches ->
  forall (ms : Meters) (step : Z) (w : World),
  meters_nonneg ms ->
  exists ms', snd (validate_steps config epoch len ms step batches w) = Ok ms'.
Proof.
  intros Hf Hb. induction Hb as [| [x y] rest Hx Hrest IH]; intros ms step w Hm.
  - exists ms. reflexivity.
  - rewrite validate_steps_cons.
    pose proof (validate_batch_result config epoch len ms step x y w) as R.
    destruct (finish_batch_ok config step len ms
                (loss_item (criterion (forward1 (params (state w))
                                         (training (state w)) x) y))
                (accuracy (forward1 (params (state w)) (training (state w)) x) y)
                (size0 x) Hf Hm Hx) as [ms1 [E Hm1]].
    rewrite E in R.
    destruct (validate_batch config epoch len ms step (x, y) w) as [w1 r].
    simpl in R. subst r. apply IH, Hm1.
Qed.

Lemma train_steps_ok (config : Args) (sf : SearchFor) (epoch len : Z)
  (batches : list Batch) :
  log_frequency config <> 0 ->
  nonempty_batches batches ->
  forall (ms : Meters) (step : Z) (w : World),
  meters_nonneg ms ->
  exists ms', snd (train_steps config sf epoch len ms step batches w) = Ok ms'.
Proof.
  intros Hf Hb. induction Hb as [| [x y] rest Hx Hrest IH]; intros ms step w Hm.
  - exists ms. reflexivity.
  - rewrite train_steps_cons.
    pose proof (train_batch_result config sf epoch len ms step x y w) as R.
    destruct (finish_batch_ok config step len ms
                (loss_item (batch_loss config sf (params (state w))
                              (training (state w)) x y))
                (accuracy (primary_logits sf (params (state w))
                             (training (state w)) x) y)
                (size0 x) Hf Hm Hx) as [ms1 [E Hm1]].
    rewrite E in R.
    destruct (train_batch config sf epoch len ms step (x, y) w) as [w1 r].
    simpl in R. subst r. apply IH, Hm1.
Qed.

Lemma train_ok (config : Args) (loader : list Batch) (epoch : Z)
  (sf : SearchFor) (w : World) :
  log_frequency config <> 0 ->
  nonempty_batches loader ->
  snd (train config loader epoch sf w) = Ok tt.
Proof.
  intros Hf Hb. unfold train. run.
  match goal with
  | |- context [train_steps ?c ?s ?e ?n ?m ?i ?b ?w0] =>
    destruct (train_steps_ok c s e n b Hf Hb m i w0 new_meters_nonneg)
      as [ms' E];
    destruct (train_steps c s e n m i b w0) as [w1 r]
  end.
  simpl in E. subst r. reflexivity.
Qed.

Lemma validate_ok (config : Args) (loader : list Batch) (epoch cs : Z)
  (w : World) :
  log_frequency config <> 0 ->
  nonempty_batches loader ->
  exists v, snd (validate config loader epoch cs w) = Ok v.
Proof.
  intros Hf Hb. unfold validate, with_no_grad. run.
  match goal with
  | |- context [validate_steps ?c ?e ?n ?m ?i ?b ?w0] =>
    destruct (validate_steps_ok c e n b Hf Hb m i w0 new_meters_nonneg)
      as [ms' E];
    destruct (validate_steps c e n m i b w0) as [w1 r]
  end.
  simpl in E. subst r. eexists. reflexivity.
Qed.

(** *** The epoch loop *)

Lemma valid_event_batch_event (l : list Event) :
  forallb valid_event l = true -> forallb batch_event l = true.
Proof.
  induction l as [| e l IH]; simpl; auto.
  intros H. apply andb_prop in H. destruct H as [He Hl].
  rewrite (IH Hl), andb_true_r.
  destruct e; try discriminate; try reflexivity.
  destruct m; try discriminate; reflexivity.
Qed.

Lemma batch_event_silent (l : list Event) :
  forallb batch_event l = true ->
  saves l = [] /\ phases l = [] /\ valid_finals l = [].
Proof.
  induction l as [| e l IH]; simpl; auto.
  intros H. apply andb_prop in H. destruct H as [He Hl].
  destruct (IH Hl) as [-> [-> ->]].
  destruct e; try discriminate; auto.
  destruct m; try discriminate; auto.
Qed.

Lemma saves_app (a b : list Event) : saves (a ++ b) = saves a ++ saves b.
Proof. apply flat_map_app. Qed.

Lemma phases_app (a b : list Event) : phases (a ++ b) = phases a ++ phases b.
Proof. apply flat_map_app. Qed.

Lemma valid_finals_app (a b : list Event) :
  valid_finals (a ++ b) = valid_finals a ++ valid_finals b.
Proof. apply flat_map_app. Qed.

(** Lines 141-145 in one piece. *)
Lemma checkpoint_run (args : Args) (best t : float) (w : World) :
  exists s',
    checkpoint args best t w =
      (mkWorld s'
         (trace w
          ++ (if ge t best
              then [EvSave (result_file args) (params (state w))] else [])
          ++ [EvLrStep]),
       Ok (max best t))
    /\ saved s' = (if ge t best then Some (params (state w))
                   else saved (state w))
    /\ params s' = params (state w).
Proof.
  unfold checkpoint. rewrite eq_max_ge.
  destruct (ge t best); run; rewrite <- ?app_assoc; simpl;
    eexists; split; try reflexivity; split; reflexivity.
Qed.

(** A training pass and a validation pass that return. *)
Lemma train_validate_trace (args : Args) (tl : Z -> list Batch)
  (vl : list Batch) (e : Z) (w wv : World) (t : float) :
  train_validate args tl vl e w = (wv, Ok t) ->
  exists l,
    trace wv = trace w ++ l
    /\ saves l = []
    /\ valid_finals l = [t]
    /\ phases l = [PhTrainBegin e; PhModelTrain; PhTrainEnd (e + 1);
                   PhModelEval; PhValidEnd (e + 1)].
Proof.
  unfold train_validate, bind. intros E.
  destruct (train_trace args (tl e) e (search_for args) w)
    as [l1 [k [tail1 [H1 [H2 [_ [_ H3]]]]]]].
  destruct (train args (tl e) e (search_for args) w) as [w1 [[] | ex]];
    [| discriminate E].
  simpl in H1, H3. destruct H3 as [_ [a ->]].
  match type of E with
  | validate ?c ?b ?i ?cs ?w0 = _ =>
    destruct (validate_run c b i cs w0) as [l2 [tail2 [V1 [V2 V3]]]]
  end.
  rewrite E in V1, V3. simpl in V1, V3. subst wv tail2. simpl. rewrite H1.
  destruct (batch_event_silent l1 H2) as [S1 [P1 F1]].
  destruct (batch_event_silent l2 (valid_event_batch_event l2 V2))
    as [S2 [P2 F2]].
  eexists. rewrite <- !app_assoc. simpl. split; [reflexivity |].
  unfold saves, phases, valid_finals in *.
  repeat split; repeat (first [rewrite flat_map_app | progress simpl]);
    rewrite ?S1, ?S2, ?P1, ?P2, ?F1, ?F2; reflexivity.
Qed.

Lemma epoch_body_run (args : Args) (tl : Z -> list Batch) (vl : list Batch)
  (best : float) (e : Z) (w w' : World) (best' : float) :
  epoch_body args tl vl best e w = (w', Ok best') ->
  exists wv t l,
    train_validate args tl vl e w = (wv, Ok t)
    /\ best' = max best t
    /\ trace wv = trace w ++ l
    /\ saves l = []
    /\ valid_finals l = [t]
    /\ phases l = [PhTrainBegin e; PhModelTrain; PhTrainEnd (e + 1);
                   PhModelEval; PhValidEnd (e + 1)]
    /\ trace w' =
         trace wv
         ++ (if ge t best
             then [EvSave (result_file args) (params (state wv))] else [])
         ++ [EvLrStep]
    /\ saved (state w') =
         (if ge t best then Some (params (state wv)) else saved (state wv)).
Proof.
  unfold epoch_body, bind. intros E.
  destruct (train_validate args tl vl e w) as [wv [t | ex]] eqn:TV;
    [| discriminate E].
  destruct (train_validate_trace args tl vl e w wv t TV)
    as [l [H1 [H2 [H3 H4]]]].
  destruct (checkpoint_run args best t wv) as [s' [C1 [C2 C3]]].
  rewrite C1 in E. inversion E. subst w' best'. simpl.
  exists wv, t, l. repeat split; auto.
Qed.

Lemma epochs_S (args : Args) (tl : Z -> list Batch) (vl : list Batch)
  (best : float) (e : Z) (n : nat) (w : World) :
  epochs args tl vl best e (S n) w =
  match epoch_body args tl vl best e w with
  | (w1, Ok b) => epochs args tl vl b (e + 1) n w1
  | (w1, Raise ex) => (w1, Raise ex)
  end.
Proof. reflexivity. Qed.

(** The loop after [n] epochs that returned: the best accuracy is the
    maximum, taken from the left, of the accuracies the validation
    passes returned, and the marks are those of [n] epochs in order. *)
Lemma epochs_run (args : Args) (tl : Z -> list Batch) (vl : list Batch)
  (n : nat) :
  forall (best : float) (e : Z) (w w' : World) (best' : float),
  epochs args tl vl best e n w = (w', Ok best') ->
  exists l,
    trace w' = trace w ++ l
    /\ List.length (valid_finals l) = n
    /\ best' = fold_left max (valid_finals l) best
    /\ phases l = run_phases e (wrote_flags best (valid_finals l))
    /\ (is_nan best = false -> is_nan best' = false).
Proof.
  induction n as [| n IH]; intros best e w w' best' E.
  - simpl in E. inversion E. exists []. rewrite app_nil_r. simpl. auto.
  - rewrite epochs_S in E.
    destruct (epoch_body args tl vl best e w) as [w1 [b | ex]] eqn:B;
      [| discriminate E].
    destruct (epoch_body_run args tl vl best e w w1 b B)
      as [wv [t [l [_ [Hb [H1 [H2 [H3 [H4 [H5 H6]]]]]]]]]].
    destruct (IH b (e + 1) w1 w' best' E) as [l' [I1 [I2 [I3 [I4 I5]]]]].
    exists ((l ++ (if ge t best
                   then [EvSave (result_file args) (params (state wv))] else [])
               ++ [EvLrStep]) ++ l').
    assert (V : valid_finals
                  ((l ++ (if ge t best
                          then [EvSave (result_file args) (params (state wv))]
                          else []) ++ [EvLrStep]) ++ l')
                = t :: valid_finals l').
    { rewrite !valid_finals_app, H3. destruct (ge t best); reflexivity. }
    rewrite V. simpl. subst b. repeat split.
    + rewrite I1, H5, H1, <- !app_assoc. reflexivity.
    + rewrite I2. reflexivity.
    + exact I3.
    + rewrite !phases_app, H4, I4. unfold epoch_phases.
      destruct (ge t best); reflexivity.
    + intros N. apply I5, max_not_nan, N.
Qed.

(** Whatever the outcome, a run only adds to the trace. *)
Lemma train_validate_extends (args : Args) (tl : Z -> list Batch)
  (vl : list Batch) (e : Z) (w : World) :
  exists l, trace (fst (train_validate args tl vl e w)) = trace w ++ l.
Proof.
  unfold train_validate, bind.
  destruct (train_trace args (tl e) e (search_for args) w)
    as [l1 [k [tail1 [H1 _]]]].
  destruct (train args (tl e) e (search_for args) w) as [w1 [[] | ex]];
    simpl in H1.
  - match goal with
    | |- context [validate ?c ?b ?i ?cs ?w0] =>
      destruct (validate_run c b i cs w0) as [l2 [tail2 [V1 _]]]
    end.
    rewrite V1. simpl. rewrite H1. eexists. rewrite <- app_assoc. reflexivity.
  - simpl. eexists. exact H1.
Qed.

Lemma epoch_body_extends (args : Args) (tl : Z -> list Batch)
  (vl : list Batch) (best : float) (e : Z) (w : World) :
  exists l, trace (fst (epoch_body args tl vl best e w)) = trace w ++ l.
Proof.
  unfold epoch_body, bind.
  destruct (train_validate_extends args tl vl e w) as [l H].
  destruct (train_validate args tl vl e w) as [wv [t | ex]]; simpl in H.
  - destruct (checkpoint_run args best t wv) as [s' [C1 _]].
    rewrite C1. simpl. rewrite H. eexists. rewrite <- app_assoc. reflexivity.
  - simpl. eexists. exact H.
Qed.

Lemma epochs_extends (args : Args) (tl : Z -> list Batch) (vl : list Batch)
  (n : nat) :
  forall (best : float) (e : Z) (w : World),
  exists l, trace (fst (epochs args tl vl best e n w)) = trace w ++ l.
Proof.
  induction n as [| n IH]; intros best e w.
  - exists []. simpl. rewrite app_nil_r. reflexivity.
  - rewrite epochs_S.
    destruct (epoch_body_extends args tl vl best e w) as [l H].
    destruct (epoch_body args tl vl best e w) as [w1 [b | ex]]; simpl in H.
    + destruct (IH b (e + 1) w1) as [l' H'].
      rewrite H', H. eexists. rewrite <- app_assoc. reflexivity.
    + simpl. eexists. exact H.
Qed.

Lemma main_loop_extends (args : Args) (tl : Z -> list Batch)
  (vl : list Batch) (w : World) :
  exists l,
    trace (fst (main_loop args tl vl w)) =
      trace (fst (epochs args tl vl zero 0 (Z.to_nat (retrain_epochs args)) w))
      ++ l.
Proof.
  unfold main_loop, bind.
  destruct (epochs args tl vl zero 0 (Z.to_nat (retrain_epochs args)) w)
    as [w1 [b | ex]]; run.
  - eexists. reflexivity.
  - exists []. rewrite app_nil_r. reflexivity.
Qed.

(** With a log frequency other than zero and no empty batch, an epoch
    returns. *)
Lemma train_validate_ok (args : Args) (tl : Z -> list Batch) (vl : list Batch)
  (e : Z) (w : World) :
  log_frequency args <> 0 ->
  (forall e', nonempty_batches (tl e')) ->
  nonempty_batches vl ->
  exists wv t, train_validate args tl vl e w = (wv, Ok t).
Proof.
  intros Hf Ht Hv. unfold train_validate, bind.
  pose proof (train_ok args (tl e) e (search_for args) w Hf (Ht e)) as T.
  destruct (train args (tl e) e (search_for args) w) as [w1 r].
  simpl in T. subst r.
  match goal with
  | |- context [validate ?c ?b ?i ?cs ?w0] =>
    destruct (validate_ok c b i cs w0 Hf Hv) as [v V];
    destruct (validate c b i cs w0) as [wv r]
  end.
  simpl in V. subst r. eauto.
Qed.


(** The last of [n + 1] iterations is the body at index [e + n], run
    from where the first [n] left off. *)
Lemma epochs_snoc (args : Args) (tl : Z -> list Batch) (vl : list Batch)
  (n : nat) :
  forall (best : float) (e : Z) (w : World),
  epochs args tl vl best e (S n) w =
  match epochs args tl vl best e n w with
  | (w1, Ok b) => epoch_body args tl vl b (e + Z.of_nat n) w1
  | (w1, Raise ex) => (w1, Raise ex)
  end.
Proof.
  induction n as [| n IH]; intros best e w.
  - rewrite epochs_S. simpl. rewrite Z.add_0_r.
    destruct (epoch_body args tl vl best e w) as [w1 [b | ex]]; reflexivity.
  - rewrite epochs_S. rewrite (epochs_S args tl vl best e n w).
    destruct (epoch_body args tl vl best e w) as [w1 [b | ex]]; [| reflexivity].
    rewrite IH. replace (e + 1 + Z.of_nat n) with (e + Z.of_nat (S n)) by lia.
    reflexivity.
Qed.

(** The first [k] of [k + m] iterations, then the other [m]: the loop
    of the driver goes through the world every shorter loop ends in. *)
Lemma epochs_app (args : Args) (tl : Z -> list Batch) (vl : list Batch)
  (k m : nat) :
  forall (best : float) (e : Z) (w : World),
  epochs args tl vl best e (k + m) w =
  match epochs args tl vl best e k w with
  | (w1, Ok b) => epochs args tl vl b (e + Z.of_nat k) m w1
  | (w1, Raise ex) => (w1, Raise ex)
  end.
Proof.
  induction k as [| k IH]; intros best e w.
  - simpl. rewrite Z.add_0_r. reflexivity.
  - change (S k + m)%nat with (S (k + m)). rewrite !epochs_S.
    destruct (epoch_body args tl vl best e w) as [w1 [b | ex]]; [| reflexivity].
    rewrite IH. replace (e + 1 + Z.of_nat k) with (e + Z.of_nat (S k)) by lia.
    reflexivity.
Qed.


Lemma eq_ge (a b : float) : eq a b = true -> ge a b = true.
Proof.
  unfold eq, ge, SFeqb, SFleb. rewrite (SFcompare_antisym a b).
  destruct (SFcompare a b) as [[ | | ] |]; intros H; try discriminate; reflexivity.
Qed.

Lemma valid_event_no_grad (l : list Event) :
  forallb valid_event l = true -> forallb no_grad_call l = true.
Proof.
  induction l as [| e l IH]; simpl; auto.
  intros H. apply andb_prop in H. destruct H as [He Hl].
  rewrite (IH Hl), andb_true_r.
  destruct e; try discriminate; try reflexivity; exact He.
Qed.

(** In the steps of one batch the optimizer step comes last, right
    after the clipping. *)
Lemma batch_kinds_step (config : Args) (sf : SearchFor)
  (pre post : list Kind) :
  batch_kinds config sf = pre ++ KStep :: post ->
  post = []
  /\ exists pre', pre = pre' ++ [KBackward; KClip (grad_clip config)].
Proof.
  unfold batch_kinds. destruct (uses_aux config sf); simpl; intros H;
    destruct pre as [| a1 [| a2 [| a3 [| a4 [| a5 [| a6 [| a7 pre]]]]]]];
    simpl in H; inversion H; subst; split; try reflexivity;
    try (destruct pre; discriminate).
  - exists [KZeroGrad; KForward; KCriterion; KCriterion]. reflexivity.
  - exists [KZeroGrad; KForward; KCriterion]. reflexivity.
Qed.

Lemma repeat_kinds_step (config : Args) (sf : SearchFor) (k : nat) :
  forall pre post,
  List.concat (repeat (batch_kinds config sf) k) = pre ++ KStep :: post ->
  exists pre', pre = pre' ++ [KBackward; KClip (grad_clip config)].
Proof.
  induction k as [| k IH]; intros pre post H.
  - destruct pre; discriminate H.
  - change (batch_kinds config sf
            ++ List.concat (repeat (batch_kinds config sf) k)
            = pre ++ KStep :: post) in H.
    apply app_eq_app in H. destruct H as [l [[H1 H2] | [H1 H2]]].
    + destruct l as [| x l].
      * simpl in H2. symmetry in H2.
        destruct (IH [] post H2) as [pre' P]. destruct pre'; discriminate P.
      * simpl in H2. inversion H2. subst x.
        apply batch_kinds_step in H1. apply H1.
    + destruct (IH l post H2) as [pre' P].
      exists (batch_kinds config sf ++ pre'). rewrite H1, P, app_assoc.
      reflexivity.
Qed.

(** *** How far a training pass goes *)

Lemma finish_batch_count (config : Args) (step len : Z) (ms : Meters)
  (l : float) (a : float * float) (b : Batch) (c : Z) :
  meters_count ms c ->
  if batch_raises (log_frequency config) c b
  then finish_batch config step len (update_meters ms l a (size0 (fst b)))
       = Raise ZeroDivisionError
  else exists ms',
      finish_batch config step len (update_meters ms l a (size0 (fst b)))
      = Ok ms'
      /\ meters_count ms' (c + size0 (fst b)).
Proof.
  intros [H1 [H2 H3]].
  unfold batch_raises, finish_batch, update_meters, AverageMeter.update,
    log_due, mod_is_zero.
  rewrite H1, H2, H3.
  destruct (c + size0 (fst b) =? 0); simpl; [reflexivity |].
  destruct (log_frequency config =? 0); simpl; [reflexivity |].
  destruct (step mod log_frequency config =? 0);
    eexists; (split; [reflexivity | repeat split]).
Qed.

Lemma new_meters_count : meters_count new_meters 0.
Proof. repeat split. Qed.

(** The calls of a training loop are those of the batches it begins,
    and it returns exactly when no batch raises at its end. *)
Lemma train_steps_begun (config : Args) (sf : SearchFor) (epoch len : Z)
  (batches : list Batch) :
  forall (ms : Meters) (step : Z) (w : World) (c : Z),
  meters_count ms c ->
  exists l : list Event,
    trace (fst (train_steps config sf epoch len ms step batches w)) =
      trace w ++ l
    /\ kinds l = List.concat (repeat (batch_kinds config sf)
                                (batches_begun (log_frequency config) c batches))
    /\ match snd (train_steps config sf epoch len ms step batches w) with
       | Ok _ => batches_pass (log_frequency config) c batches = true
       | Raise _ => batches_pass (log_frequency config) c batches = false
       end.
Proof.
  induction batches as [| [x y] rest IH]; intros ms step w c Hc.
  - exists []. simpl. rewrite app_nil_r. repeat split.
  - rewrite train_steps_cons.
    destruct (train_batch_trace config sf epoch len ms step x y w)
      as [logs [Ht Hl]].
    destruct (batch_calls_events config sf (state w) x y) as [_ Hk].
    pose proof (train_batch_result config sf epoch len ms step x y w) as R.
    pose proof (finish_batch_count config step len ms
                  (loss_item (batch_loss config sf (params (state w))
                                (training (state w)) x y))
                  (accuracy (primary_logits sf (params (state w))
                               (training (state w)) x) y)
                  ((x, y) : Batch) c Hc) as Fb.
    cbn [batches_begun batches_pass].
    destruct (batch_raises (log_frequency config) c ((x, y) : Batch)).
    + change (size0 (fst ((x, y) : Batch))) with (size0 x) in Fb.
      rewrite Fb in R.
      destruct (train_batch config sf epoch len ms step (x, y) w) as [w1 r].
      cbn [fst snd] in R, Ht. subst r.
      exists (batch_calls config sf (state w) x y ++ logs).
      simpl fst. split; [exact Ht |]. split; [| reflexivity].
      rewrite kinds_app, Hk, (step_log_kinds _ Hl). simpl.
      rewrite !app_nil_r. reflexivity.
    + destruct Fb as [ms1 [E Hc1]].
      change (size0 (fst ((x, y) : Batch))) with (size0 x) in E.
      rewrite E in R.
      destruct (train_batch config sf epoch len ms step (x, y) w) as [w1 r].
      cbn [fst snd] in R, Ht. subst r.
      destruct (IH ms1 (step + 1) w1 _ Hc1) as [l [H1 [H2 H3]]].
      exists ((batch_calls config sf (state w) x y ++ logs) ++ l).
      rewrite H1, Ht, <- !app_assoc. split; [reflexivity |]. split.
      * rewrite !kinds_app, Hk, H2, (step_log_kinds _ Hl). reflexivity.
      * exact H3.
Qed.

Lemma train_begun (config : Args) (loader : list Batch) (epoch : Z)
  (sf : SearchFor) (w : World) :
  kinds (since w (fst (train config loader epoch sf w))) =
    List.concat (repeat (batch_kinds config sf)
                   (batches_begun (log_frequency config) 0 loader))
  /\ match snd (train config loader epoch sf w) with
     | Ok _ => batches_pass (log_frequency config) 0 loader = true
     | Raise _ => batches_pass (log_frequency config) 0 loader = false
     end.
Proof.
  unfold train. run.
  match goal with
  | |- context [train_steps ?c ?s ?e ?n ?m ?i ?b ?w0] =>
    destruct (train_steps_begun c s e n b m i w0 0 new_meters_count)
      as [l [H1 [H2 H3]]];
    destruct (train_steps c s e n m i b w0) as [w1 [ms1 | ex]]
  end; simpl in H1 |- *.
  - split; [| exact H3].
    erewrite since_app by (simpl; rewrite H1, <- !app_assoc; reflexivity).
    change (kinds ([EvLog (LogEpochLR epoch (lr (state w))); EvModelTrain]
                   ++ l ++ [EvLog (LogTrainFinal (epoch + 1)
                                     (retrain_epochs config)
                                     (AverageMeter.avg (top1 ms1)))])
            = List.concat (repeat (batch_kinds config sf)
                             (batches_begun (log_frequency config) 0 loader))).
    rewrite !kinds_app, H2. simpl. rewrite app_nil_r. reflexivity.
  - split; [| exact H3].
    erewrite since_app by (simpl; rewrite H1, <- !app_assoc; reflexivity).
    change (kinds ([EvLog (LogEpochLR epoch (lr (state w))); EvModelTrain] ++ l)
            = List.concat (repeat (batch_kinds config sf)
                             (batches_begun (log_frequency config) 0 loader))).
    rewrite !kinds_app, H2. reflexivity.
Qed.

Lemma batches_pass_begun (lf : Z) (batches : list Batch) :
  forall c,
  batches_pass lf c batches = true ->
  batches_begun lf c batches = List.length batches.
Proof.
  induction batches as [| b rest IH]; intros c P; [reflexivity |].
  simpl in P |- *. destruct (batch_raises lf c b); [discriminate P |].
  simpl in P. rewrite (IH _ P). reflexivity.
Qed.

Lemma batches_begun_le (lf : Z) (batches : list Batch) :
  forall c, (batches_begun lf c batches <= List.length batches)%nat.
Proof.
  induction batches as [| b rest IH]; intros c; simpl; [lia |].
  destruct (batch_raises lf c b); [lia |].
  specialize (IH (c + size0 (fst b))). lia.
Qed.

Lemma batches_begun_first (lf c : Z) (batches : list Batch) :
  batches <> [] -> (1 <= batches_begun lf c batches)%nat.
Proof.
  destruct batches as [| b rest]; [intros H; contradiction H; reflexivity |].
  intros _. simpl. destruct (batch_raises lf c b); lia.
Qed.

Lemma nonempty_batches_pass (lf : Z) (batches : list Batch) :
  lf <> 0 -> nonempty_batches batches ->
  forall c, 0 <= c -> batches_pass lf c batches = true.
Proof.
  intros Hf Hb. induction Hb as [| b rest Hx Hrest IH]; intros c Hc;
    [reflexivity |].
  simpl. unfold batch_raises.
  destruct (Z.eqb_spec (c + size0 (fst b)) 0) as [E | _]; [lia |].
  destruct (Z.eqb_spec lf 0) as [E | _]; [contradiction |].
  simpl. apply IH. lia.
Qed.

End Runs.


(** ** The claims *)

Section Claims.

Context {F : Framework}.

(** C1. In every epoch of the driver loop the parameter state is written
    to [result_file] if and only if the top-1 accuracy the validation
    pass of that epoch returned is greater than or equal to the best
    accuracy of the epochs before, which is the maximum of their
    accuracies starting from [0].  Here [k] epochs have returned, the
    passes of epoch [k] return [t], and the write is read off the calls
    of epoch [k]. *)
Theorem checkpoint_iff_ge (args : Args) (tl : Z -> list Batch)
  (vl : list Batch) (w0 : World) (k : nat) (wk : World) (bestk : float)
  (wv : World) (t : float) :
  epochs args tl vl zero 0 k w0 = (wk, Ok bestk) ->
  train_validate args tl vl (Z.of_nat k) wk = (wv, Ok t) ->
  bestk = fold_left max (valid_finals (since w0 wk)) zero
  /\ exists w',
      epochs args tl vl zero 0 (S k) w0 = (w', Ok (max bestk t))
      /\ saves (since wk w') = (if ge t bestk then [params (state wv)] else [])
      /\ (saves (since wk w') <> [] <-> ge t bestk = true)
      /\ (ge t bestk = true ->
          In (EvSave (result_file args) (params (state wv))) (since wk w'))
      /\ saved (state w') =
           (if ge t bestk then Some (params (state wv)) else saved (state wv)).
Proof.
  intros E TV.
  destruct (epochs_run args tl vl k zero 0 w0 wk bestk E) as [l [H1 [_ [H3 _]]]].
  split.
  - rewrite (since_app w0 wk l H1). exact H3.
  - rewrite epochs_snoc, E. simpl.
    unfold epoch_body, bind. rewrite TV.
    destruct (train_validate_trace args tl vl (Z.of_nat k) wk wv t TV)
      as [l' [T1 [T2 _]]].
    destruct (checkpoint_run args bestk t wv) as [s' [C1 [C2 _]]].
    rewrite C1. eexists. split; [reflexivity |].
    erewrite since_app by (simpl; rewrite T1, <- app_assoc; reflexivity).
    rewrite !saves_app, T2. simpl.
    destruct (ge t bestk); simpl; repeat split; auto;
      try discriminate; try (intros H; contradiction H; reflexivity).
    intros _. apply in_or_app. right. left. reflexivity.
Qed.

(** C3. The best accuracy never decreases over the epochs of the driver
    loop: its value after an epoch is greater than or equal to its value
    after the epoch before. *)
Theorem best_top1_monotone (args : Args) (tl : Z -> list Batch)
  (vl : list Batch) (w0 : World) (k : nat) (wk : World) (bestk : float)
  (w' : World) (best' : float) :
  epochs args tl vl zero 0 k w0 = (wk, Ok bestk) ->
  epochs args tl vl zero 0 (S k) w0 = (w', Ok best') ->
  ge best' bestk = true.
Proof.
  intros E E'.
  destruct (epochs_run args tl vl k zero 0 w0 wk bestk E) as [l [_ [_ [_ [_ N]]]]].
  rewrite epochs_snoc, E in E'. simpl in E'.
  destruct (epoch_body_run args tl vl bestk (Z.of_nat k) wk w' best' E')
    as [wv [t [l' [_ [-> _]]]]].
  apply max_ge_best, N. reflexivity.
Qed.

(** C9. The best accuracy starts at [0.], so a first epoch whose
    validation accuracy is not negative passes the checkpoint test: the
    parameter state is written at the end of epoch 0 of every run of at
    least one epoch, also when that accuracy is [0] and nothing has
    improved. *)
Theorem first_epoch_writes (args : Args) (tl : Z -> list Batch)
  (vl : list Batch) (w0 wv : World) (t : float) :
  0 < retrain_epochs args ->
  train_validate args tl vl 0 w0 = (wv, Ok t) ->
  ge t zero = true ->
  exists w1 rest,
    epochs args tl vl zero 0 1 w0 = (w1, Ok (max zero t))
    /\ saves (since w0 w1) = [params (state wv)]
    /\ saved (state w1) = Some (params (state wv))
    /\ trace (fst (main_loop args tl vl w0)) = trace w1 ++ rest.
Proof.
  intros Hn TV G.
  destruct (train_validate_trace args tl vl 0 w0 wv t TV) as [l [T1 [T2 _]]].
  destruct (checkpoint_run args zero t wv) as [s' [C1 [C2 _]]].
  rewrite G in C1, C2.
  assert (B : epoch_body args tl vl zero 0 w0 =
              (mkWorld s'
                 (trace wv ++ [EvSave (result_file args) (params (state wv))]
                  ++ [EvLrStep]),
               Ok (max zero t))).
  { unfold epoch_body, bind. rewrite TV. exact C1. }
  eexists. 
  destruct (main_loop_extends args tl vl w0) as [l2 M].
  destruct (Z.to_nat (retrain_epochs args)) as [| n] eqn:N; [lia |].
  rewrite epochs_S, B in M.
  match type of M with
  | context [epochs ?a ?b ?c ?d ?e ?m ?w1] =>
    destruct (epochs_extends a b c m d e w1) as [l3 X]
  end.
  rewrite X in M. rewrite M. eexists.
  split; [rewrite epochs_S, B; reflexivity |].
  split; [| split; [exact C2 | rewrite <- app_assoc; reflexivity]].
  erewrite since_app by (simpl; rewrite T1, <- app_assoc; reflexivity).
  rewrite !saves_app, T2. reflexivity.
Qed.


(** C2, as the code has it.  The best accuracy changes only when the
    validation accuracy strictly exceeds it, and then becomes that
    accuracy; the checkpoint is written whenever the accuracy is greater
    than or equal to the best so far, so an epoch that ties the best
    writes as well. *)
Theorem checkpoint_on_gain_or_tie (args : Args) (best t : float) (w : World) :
  exists w',
    checkpoint args best t w = (w', Ok (max best t))
    /\ (max best t <> best -> gt t best = true)
    /\ (gt t best = true -> max best t = t)
    /\ (saves (since w w') <> [] <-> ge t best = true)
    /\ (eq t best = true -> saves (since w w') = [params (state w)]).
Proof.
  destruct (checkpoint_run args best t w) as [s' [C1 _]].
  rewrite C1. eexists. split; [reflexivity |].
  erewrite since_app by (simpl; reflexivity).
  rewrite saves_app. repeat split.
  - intros H. destruct (max_cases best t) as [[G _] | [_ E]]; [exact G |].
    contradiction.
  - intros G. unfold max. rewrite G. reflexivity.
  - destruct (ge t best); [reflexivity | intros H; contradiction H; reflexivity].
  - destruct (ge t best); [discriminate | intros H; discriminate H].
  - intros E. rewrite (eq_ge t best E). reflexivity.
Qed.

(** C5. In a training pass the operations of every batch occur in this
    order: zero the gradients, forward pass, loss, backpropagation,
    clipping of the gradient norm at [config.grad_clip], optimizer
    step.  The framework calls of a pass are exactly these six
    operations, once for each batch the pass begins and in the order of
    the loader: for all the batches of the loader when the pass returns,
    which it does when the log frequency is not zero and no batch is
    empty, and for the batches up to the one whose meters or log test
    raise otherwise, so for the first batch of a loader that has one in
    every case.  Every optimizer step comes right after the
    backpropagation and the clipping of its batch. *)
Theorem train_batch_order (config : Args) (loader : list Batch) (epoch : Z)
  (sf : SearchFor) (w : World) :
  kinds (since w (fst (train config loader epoch sf w))) =
    List.concat (repeat (batch_kinds config sf)
                   (batches_begun (log_frequency config) 0 loader))
  /\ (snd (train config loader epoch sf w) = Ok tt
      <-> batches_pass (log_frequency config) 0 loader = true)
  /\ (batches_pass (log_frequency config) 0 loader = true ->
      batches_begun (log_frequency config) 0 loader = List.length loader)
  /\ (log_frequency config <> 0 -> nonempty_batches loader ->
      snd (train config loader epoch sf w) = Ok tt
      /\ kinds (since w (fst (train config loader epoch sf w))) =
           List.concat (repeat (batch_kinds config sf) (List.length loader)))
  /\ (loader <> [] ->
      (1 <= batches_begun (log_frequency config) 0 loader)%nat)
  /\ (batches_begun (log_frequency config) 0 loader <= List.length loader)%nat
  /\ (forall pre post,
      kinds (since w (fst (train config loader epoch sf w)))
      = pre ++ KStep :: post ->
      exists pre', pre = pre' ++ [KBackward; KClip (grad_clip config)]).
Proof.
  destruct (train_begun config loader epoch sf w) as [K R].
  assert (I : snd (train config loader epoch sf w) = Ok tt
              <-> batches_pass (log_frequency config) 0 loader = true).
  { destruct (snd (train config loader epoch sf w)) as [[] | e].
    - split; intros _; [exact R | reflexivity].
    - rewrite R. split; intros H; discriminate H. }
  split; [exact K |]. split; [exact I |].
  split; [apply batches_pass_begun |].
  split; [| split; [apply batches_begun_first |
                    split; [apply batches_begun_le |]]].
  - intros Hf Hb.
    pose proof (nonempty_batches_pass _ loader Hf Hb 0 (Z.le_refl 0)) as P.
    split; [apply I, P |].
    rewrite K, (batches_pass_begun _ _ _ P). reflexivity.
  - intros pre post H. rewrite K in H.
    exact (repeat_kinds_step config sf _ pre post H).
Qed.

(** C6. A training batch of the micro family makes the two-output
    forward call, one of the macro family the single-output call.  When
    the family is micro and [aux_weight > 0] the auxiliary criterion is
    evaluated and the loss that is backpropagated is the primary loss
    plus [aux_weight] times the auxiliary loss; in every other case the
    auxiliary criterion is not evaluated and the loss is the primary
    loss alone. *)
Theorem train_batch_forward_and_loss (config : Args) (sf : SearchFor)
  (epoch len : Z) (ms : Meters) (step : Z) (x : Input) (y : Label)
  (w : World) :
  let p := params (state w) in
  let tr := training (state w) in
  let ge := grad_enabled (state w) in
  exists logs,
    forallb step_log logs = true
    /\ since w (fst (train_batch config sf epoch len ms step (x, y) w)) =
       (if is_micro sf && gt (aux_weight config) zero then
          [EvZeroGrad; EvForward TwoOutput tr ge;
           EvCriterion false; EvCriterion true;
           EvBackward
             (loss_add (criterion (fst (forward2 p tr x)) y)
                (loss_scale (aux_weight config)
                   (criterion (snd (forward2 p tr x)) y)));
           EvClipGrad (grad_clip config); EvOptStep]
        else if is_micro sf then
          [EvZeroGrad; EvForward TwoOutput tr ge; EvCriterion false;
           EvBackward (criterion (fst (forward2 p tr x)) y);
           EvClipGrad (grad_clip config); EvOptStep]
        else
          [EvZeroGrad; EvForward SingleOutput tr ge; EvCriterion false;
           EvBackward (criterion (forward1 p tr x) y);
           EvClipGrad (grad_clip config); EvOptStep])
       ++ logs.
Proof.
  intros p tr ge.
  destruct (train_batch_trace config sf epoch len ms step x y w)
    as [logs [H1 H2]].
  exists logs. split; [exact H2 |].
  rewrite (since_app _ _ _ H1).
  unfold batch_calls, batch_loss, uses_aux, batch_form, primary_loss,
    primary_logits, auxiliary_loss.
  destruct sf, (gt (aux_weight config) zero); reflexivity.
Qed.

(** C7. A validation pass computes no gradient and leaves the model's
    parameters as they were: whatever the state and the batches, the
    parameters, the gradients, the optimizer and schedule state and the
    saved file are the same after [validate] as before, the gradient
    mode is restored, and the only calls are the switch to evaluation
    mode, forward passes in evaluation mode with gradients disabled,
    criterion calls and log records. *)
Theorem validate_leaves_parameters (config : Args) (loader : list Batch)
  (epoch cs : Z) (w : World) :
  let w' := fst (validate config loader epoch cs w) in
  params (state w') = params (state w)
  /\ grads (state w') = grads (state w)
  /\ opt_state (state w') = opt_state (state w)
  /\ lr (state w') = lr (state w)
  /\ last_epoch (state w') = last_epoch (state w)
  /\ saved (state w') = saved (state w)
  /\ grad_enabled (state w') = grad_enabled (state w)
  /\ training (state w') = false
  /\ forallb no_grad_call (since w w') = true.
Proof.
  intros w'. subst w'.
  destruct (validate_run config loader epoch cs w) as [l [tail [H1 [H2 H3]]]].
  rewrite H1. simpl. repeat split.
  erewrite since_app by (simpl; reflexivity).
  simpl. rewrite forallb_app, (valid_event_no_grad l H2).
    destruct (snd (validate config loader epoch cs w)); subst tail; reflexivity.
Qed.

(** C4. With a log frequency other than zero and no empty batch,
    [validate] returns the average of the top-1 accuracies of the
    batches weighted by their sizes, as its [top1] meter accumulates it
    (neither the top-5 accuracy nor the loss); the [top1] meter of a
    training batch takes the top-1 accuracy and the size of its batch by
    the same update. *)
Theorem validate_returns_top1_average (config : Args) (loader : list Batch)
  (epoch cs : Z) (w : World) :
  log_frequency config <> 0 ->
  nonempty_batches loader ->
  snd (validate config loader epoch cs w) =
    Ok (weighted_average (map (valid_acc1 (params (state w))) loader))
  /\ forall sf len ms step x y ms',
      snd (train_batch config sf epoch len ms step (x, y) w) = Ok ms' ->
      AverageMeter.update (top1 ms)
        (fst (accuracy (primary_logits sf (params (state w))
                          (training (state w)) x) y))
        (size0 x)
      = Ok (top1 ms').
Proof.
  intros Hf Hb. split.
  - destruct (validate_ok config loader epoch cs w Hf Hb) as [v V].
    rewrite V. destruct (validate_result config loader epoch cs w v V)
      as [m [M ->]].
    rewrite (meter_steps_average _ _ M). reflexivity.
  - intros sf len ms step x y ms' E.
    rewrite train_batch_result in E. unfold finish_batch, update_meters in E.
    destruct (AverageMeter.update (losses ms) _ _); [| discriminate E].
    destruct (AverageMeter.update (top1 ms) _ _) as [t1 |]; [| discriminate E].
    destruct (AverageMeter.update (top5 ms) _ _); [| discriminate E].
    destruct (log_due _ _ _); [| discriminate E].
    inversion E. reflexivity.
Qed.

End Claims.

(** ** The command line *)

Section CommandLine.

Import Cli.

Variable py_int : string -> option Z.
Variable py_float : string -> option float.

Lemma optional_eqb_eq (a b : Optional) : optional_eqb a b = true <-> a = b.
Proof.
  split.
  - destruct a, b; intros H; try reflexivity; discriminate H.
  - intros <-. destruct a; reflexivity.
Qed.

Lemma store_same (o : Optional) (v : PyVal) (ns : Namespace) :
  store o v ns o = v.
Proof. unfold store. destruct o; reflexivity. Qed.

Lemma store_other (o o' : Optional) (v : PyVal) (ns : Namespace) :
  o <> o' -> store o v ns o' = ns o'.
Proof.
  intros N. unfold store.
  destruct (optional_eqb o o') eqn:E; [| reflexivity].
  apply optional_eqb_eq in E. contradiction.
Qed.

(** An argument that is not given keeps what the namespace held. *)
Lemma parse_optionals_absent (o : Optional) (gs : list (Optional * string)) :
  forall ns ns',
  parse_optionals py_int py_float gs ns = Some ns' ->
  ~ In o (map fst gs) ->
  ns' o = ns o.
Proof.
  induction gs as [| [o' raw] gs IH]; intros ns ns' P N.
  - simpl in P. inversion P. reflexivity.
  - simpl in P.
    destruct (convert py_int py_float (declared o') raw) as [v |];
      [| discriminate P].
    destruct (choice_ok (declared o') raw); [| discriminate P].
    rewrite (IH _ _ P) by (intros I; apply N; right; exact I).
    apply store_other. intros ->. apply N. left. reflexivity.
Qed.

Lemma parse_optionals_app (a b : list (Optional * string)) :
  forall ns,
  parse_optionals py_int py_float (a ++ b) ns =
  match parse_optionals py_int py_float a ns with
  | Some ns1 => parse_optionals py_int py_float b ns1
  | None => None
  end.
Proof.
  induction a as [| [o raw] a IH]; intros ns; [reflexivity |].
  rewrite <- app_comm_cons. simpl.
  destruct (convert py_int py_float (declared o) raw) as [v |]; [| reflexivity].
  destruct (choice_ok (declared o) raw); [apply IH | reflexivity].
Qed.






(** *** When the parser succeeds *)



Lemma choice_search_for (raw : string) :
  choice_ok (declared OptSearchFor) raw = true ->
  raw = "macro"%string \/ raw = "micro"%string.
Proof.
  unfold choice_ok. cbn [declared choices existsb]. intros Ch.
  rewrite orb_false_r in Ch. apply orb_prop in Ch.
  destruct Ch as [Ch | Ch]; apply String.eqb_eq in Ch; [left | right];
    exact Ch.
Qed.




(** *** The values the namespace holds *)

Lemma parse_optionals_last (pre post : list (Optional * string))
  (o : Optional) (raw : string) (ns ns' : Namespace) :
  parse_optionals py_int py_float (pre ++ (o, raw) :: post) ns = Some ns' ->
  ~ In o (map fst post) ->
  exists v,
    convert py_int py_float (declared o) raw = Some v
    /\ choice_ok (declared o) raw = true
    /\ ns' o = v.
Proof.
  intros P N. rewrite parse_optionals_app in P.
  destruct (parse_optionals py_int py_float pre ns) as [ns1 |];
    [| discriminate P].
  cbn [parse_optionals] in P.
  destruct (convert py_int py_float (declared o) raw) as [v |] eqn:Cv;
    [| discriminate P].
  destruct (choice_ok (declared o) raw) eqn:Ch; [| discriminate P].
  exists v.
  split; [reflexivity |]. split; [reflexivity |].
  rewrite (parse_optionals_absent o post _ _ P N).
  apply store_same.
Qed.

Lemma parse_args_fields (cl : CommandLine) (args : Args) :
  parse_args py_int py_float cl = Some args ->
  exists ns,
    parse_optionals py_int py_float (given cl) defaults = Some ns
    /\ as_search_for (ns OptSearchFor) = Some (search_for args)
    /\ as_int (ns OptRetrainEpochs) = Some (retrain_epochs args)
    /\ as_int (ns OptBatchSize) = Some (batch_size args)
    /\ as_float (ns OptAuxWeight) = Some (aux_weight args)
    /\ as_float (ns OptGradClip) = Some (grad_clip args)
    /\ as_int (ns OptLogFrequency) = Some (log_frequency args)
    /\ as_int (ns OptNumLayers) = Some (num_layers args)
    /\ nas_result args = nas_result_arg cl
    /\ result_file args = result_file_arg cl.
Proof.
  unfold parse_args. intros P.
  destruct (parse_optionals py_int py_float (given cl) defaults) as [ns |];
    [| discriminate P].
  exists ns. split; [reflexivity |].
  destruct (as_search_for _); [| discriminate P].
  destruct (as_int (ns OptRetrainEpochs)); [| discriminate P].
  destruct (as_int (ns OptBatchSize)); [| discriminate P].
  destruct (as_float (ns OptAuxWeight)); [| discriminate P].
  destruct (as_float (ns OptGradClip)); [| discriminate P].
  destruct (as_int (ns OptLogFrequency)); [| discriminate P].
  destruct (as_int (ns OptNumLayers)); [| discriminate P].
  inversion P. repeat split.
Qed.

(** The value stored for the last occurrence of the argument [o]. *)
Ltac last_value O G N o :=
  let v := fresh "v" in
  let Cv := fresh "Cv" in
  let Ch := fresh "Ch" in
  let L := fresh "L" in
  rewrite G in O;
  destruct (parse_optionals_last _ _ o _ _ _ O N) as [v [Cv [Ch L]]];
  unfold convert in Cv; cbn [declared type_] in Cv.

(** In the namespace of a command line that parses, each typed optional
    argument holds the conversion of the value it was last given with,
    by [int] or by [float], and the architecture family is the one
    named by the last [--search-for]; the positional arguments are the
    two paths. *)
Theorem typed_options_last_wins (cl : CommandLine) (args : Args)
  (pre post : list (Optional * string)) (o : Optional) (raw : string) :
  parse_args py_int py_float cl = Some args ->
  given cl = pre ++ (o, raw) :: post ->
  ~ In o (map fst post) ->
  (o = OptRetrainEpochs -> py_int raw = Some (retrain_epochs args))
  /\ (o = OptBatchSize -> py_int raw = Some (batch_size args))
  /\ (o = OptLogFrequency -> py_int raw = Some (log_frequency args))
  /\ (o = OptNumLayers -> py_int raw = Some (num_layers args))
  /\ (o = OptAuxWeight -> py_float raw = Some (aux_weight args))
  /\ (o = OptGradClip -> py_float raw = Some (grad_clip args))
  /\ (o = OptSearchFor ->
      (raw = "macro"%string /\ search_for args = Macro)
      \/ (raw = "micro"%string /\ search_for args = Micro))
  /\ nas_result args = nas_result_arg cl
  /\ result_file args = result_file_arg cl.
Proof.
  intros P G N.
  destruct (parse_args_fields cl args P)
    as [ns [O [F1 [F2 [F3 [F4 [F5 [F6 [F7 [F8 F9]]]]]]]]]].
  split; [| split; [| split; [| split; [| split; [| split; [| split;
    [| split; [exact F8 | exact F9]]]]]]]]; intros ->.
  - last_value O G N OptRetrainEpochs.
    destruct (py_int raw) as [z |]; [| discriminate Cv].
    inversion Cv as [V]. rewrite L, <- V in F2. exact F2.
  - last_value O G N OptBatchSize.
    destruct (py_int raw) as [z |]; [| discriminate Cv].
    inversion Cv as [V]. rewrite L, <- V in F3. exact F3.
  - last_value O G N OptLogFrequency.
    destruct (py_int raw) as [z |]; [| discriminate Cv].
    inversion Cv as [V]. rewrite L, <- V in F6. exact F6.
  - last_value O G N OptNumLayers.
    destruct (py_int raw) as [z |]; [| discriminate Cv].
    inversion Cv as [V]. rewrite L, <- V in F7. exact F7.
  - last_value O G N OptAuxWeight.
    destruct (py_float raw) as [f |]; [| discriminate Cv].
    inversion Cv as [V]. rewrite L, <- V in F4. exact F4.
  - last_value O G N OptGradClip.
    destruct (py_float raw) as [f |]; [| discriminate Cv].
    inversion Cv as [V]. rewrite L, <- V in F5. exact F5.
  - last_value O G N OptSearchFor.
    inversion Cv as [V]. rewrite L, <- V in F1.
    destruct (choice_search_for raw Ch) as [-> | ->]; [left | right];
      split; try reflexivity;
      unfold as_search_for in F1; simpl in F1; inversion F1; reflexivity.
Qed.

End CommandLine.

(** ** More on the passes and the driver *)

Section Coverage.

Context {F : Framework}.

(** The state a training batch leaves: the gradients are zeroed first,
    so the optimizer steps on the clipped gradient of this batch's loss
    alone, at the current learning rate; the modes, the learning rate,
    the schedule and the saved file are not touched.  This holds also
    when the batch raises afterwards, in its meters or its log test. *)
Theorem train_batch_state (config : Args) (sf : SearchFor) (epoch len : Z)
  (ms : Meters) (step : Z) (x : Input) (y : Label) (w : World) :
  let s := state w in
  let p1 := if training s then update_buffers (params s) x else params s in
  let g := clip_grad_norm_
             (backward p1 (zero_grad (grads s))
                (batch_loss config sf (params s) (training s) x y))
             (grad_clip config) in
  let r := sgd_step (lr s) (opt_state s) p1 g in
  state (fst (train_batch config sf epoch len ms step (x, y) w)) =
    mkState (snd r) (training s) (grad_enabled s) g (fst r)
            (lr s) (last_epoch s) (saved s).
Proof.
  cbv zeta.
  unfold train_batch, train_forward, train_loss, batch_loss, uses_aux,
    primary_loss, primary_logits, auxiliary_loss.
  destruct sf, (gt (aux_weight config) zero); run; unfold after_forward; simpl;
    destruct (training (state w)) eqn:T; simpl;
    destruct (update_meters _ _ _ _); simpl;
    try destruct (log_due _ _ _) as [[|] |]; simpl;
    unfold set_opt, set_grads, set_params; simpl; rewrite ?T; reflexivity.
Qed.

Lemma train_batch_frame (config : Args) (sf : SearchFor) (epoch len : Z)
  (ms : Meters) (step : Z) (x : Input) (y : Label) (w : World) :
  let s' := state (fst (train_batch config sf epoch len ms step (x, y) w)) in
  training s' = training (state w)
  /\ grad_enabled s' = grad_enabled (state w)
  /\ lr s' = lr (state w)
  /\ last_epoch s' = last_epoch (state w)
  /\ saved s' = saved (state w).
Proof.
  cbv zeta.
  unfold train_batch, train_forward, train_loss.
  destruct sf, (gt (aux_weight config) zero); run; unfold after_forward; simpl;
    destruct (training (state w)) eqn:T; simpl;
    destruct (update_meters _ _ _ _); simpl;
    try destruct (log_due _ _ _) as [[|] |]; simpl;
    rewrite ?T; repeat split.
Qed.

Lemma forward_flags_logs (tr g : bool) (l : list Event) :
  forallb step_log l = true -> forallb (forward_flags tr g) l = true.
Proof.
  induction l as [| e l IH]; simpl; auto.
  intros H. apply andb_prop in H. destruct H as [He Hl].
  rewrite (IH Hl), andb_true_r. destruct e; try discriminate. reflexivity.
Qed.

Lemma forward_flags_batch_calls (config : Args) (sf : SearchFor) (s : State)
  (x : Input) (y : Label) :
  forallb (forward_flags (training s) (grad_enabled s))
          (batch_calls config sf s x y) = true.
Proof.
  unfold batch_calls. simpl. rewrite !Bool.eqb_reflx.
  destruct (uses_aux config sf); reflexivity.
Qed.

(** The modes, the learning rate, the schedule and the saved file over
    the batches of a training loop, with the calls it makes. *)
Lemma train_steps_frame (config : Args) (sf : SearchFor) (epoch len : Z)
  (batches : list Batch) :
  forall (ms : Meters) (step : Z) (w : World),
  exists l,
    trace (fst (train_steps config sf epoch len ms step batches w))
    = trace w ++ l
    /\ forallb batch_event l = true
    /\ forallb (forward_flags (training (state w)) (grad_enabled (state w))) l
       = true
    /\ forall s',
       s' = state (fst (train_steps config sf epoch len ms step batches w)) ->
       training s' = training (state w)
       /\ grad_enabled s' = grad_enabled (state w)
       /\ lr s' = lr (state w)
       /\ last_epoch s' = last_epoch (state w)
       /\ saved s' = saved (state w).
Proof.
  induction batches as [| [x y] rest IH]; intros ms step w.
  - exists []. simpl. rewrite app_nil_r. repeat split; subst; reflexivity.
  - rewrite train_steps_cons.
    destruct (train_batch_trace config sf epoch len ms step x y w)
      as [logs [Ht Hl]].
    pose proof (train_batch_frame config sf epoch len ms step x y w) as St.
    cbv zeta in St. destruct St as [S1 [S2 [S3 [S4 S5]]]].
    destruct (batch_calls_events config sf (state w) x y) as [Hb _].
    pose proof (forward_flags_batch_calls config sf (state w) x y) as Hf.
    destruct (train_batch config sf epoch len ms step (x, y) w)
      as [w1 [ms1 | e]]; simpl fst in Ht, S1, S2, S3, S4, S5.
    + destruct (IH ms1 (step + 1) w1) as [l [H1 [H2 [H3 H4]]]].
      rewrite S1, S2 in H3.
      exists ((batch_calls config sf (state w) x y ++ logs) ++ l).
      rewrite H1, Ht, <- !app_assoc. split; [reflexivity |].
      rewrite !forallb_app, Hb, H2, Hf, H3,
        (step_log_batch_event _ Hl), (forward_flags_logs _ _ _ Hl).
      repeat split; destruct (H4 s' H) as [A [B [C [D E]]]]; congruence.
    + exists (batch_calls config sf (state w) x y ++ logs).
      simpl fst. rewrite Ht. split; [reflexivity |].
      rewrite !forallb_app, Hb, Hf,
        (step_log_batch_event _ Hl), (forward_flags_logs _ _ _ Hl).
      repeat split; subst s'; assumption.
Qed.

Lemma train_run_frame (config : Args) (loader : list Batch) (epoch : Z)
  (sf : SearchFor) (w : World) :
  exists l tail,
    trace (fst (train config loader epoch sf w))
    = trace w ++ EvLog (LogEpochLR epoch (lr (state w))) :: EvModelTrain
              :: l ++ tail
    /\ forallb batch_event l = true
    /\ forallb (forward_flags true (grad_enabled (state w))) l = true
    /\ (tail = []
        \/ exists a, tail = [EvLog (LogTrainFinal (epoch + 1)
                                      (retrain_epochs config) a)])
    /\ forall s',
       s' = state (fst (train config loader epoch sf w)) ->
       training s' = true
       /\ grad_enabled s' = grad_enabled (state w)
       /\ lr s' = lr (state w)
       /\ last_epoch s' = last_epoch (state w)
       /\ saved s' = saved (state w).
Proof.
  unfold train. run.
  match goal with
  | |- context [train_steps ?c ?s ?e ?n ?m ?i ?b ?w0] =>
    destruct (train_steps_frame c s e n b m i w0) as [l [H1 [H2 [H3 H4]]]];
    destruct (train_steps c s e n m i b w0) as [w1 [ms1 | ex]]
  end; simpl in H1, H3, H4 |- *.
  - exists l. eexists. rewrite H1, <- !app_assoc. simpl.
    split; [reflexivity |]. split; [exact H2 |]. split; [exact H3 |].
    split; [right; eexists; reflexivity |].
    intros s' ->. apply (H4 (state w1) eq_refl).
  - exists l, []. rewrite H1, <- !app_assoc, app_nil_r. simpl.
    split; [reflexivity |]. split; [exact H2 |]. split; [exact H3 |].
    split; [left; reflexivity |].
    intros s' ->. apply (H4 (state w1) eq_refl).
Qed.

Lemma batch_event_no_lr_step (l : list Event) :
  forallb batch_event l = true -> ~ In EvLrStep l.
Proof.
  intros H I. rewrite forallb_forall in H. specialize (H _ I). discriminate H.
Qed.

(** A training pass switches the model to training mode and leaves it
    there; it does not touch the gradient mode, the learning rate, the
    schedule or the saved file, it writes no checkpoint and steps no
    schedule, whether it returns or raises. *)
Theorem train_keeps_schedule_and_file (config : Args) (loader : list Batch)
  (epoch : Z) (sf : SearchFor) (w : World) :
  let w' := fst (train config loader epoch sf w) in
  training (state w') = true
  /\ grad_enabled (state w') = grad_enabled (state w)
  /\ lr (state w') = lr (state w)
  /\ last_epoch (state w') = last_epoch (state w)
  /\ saved (state w') = saved (state w)
  /\ saves (since w w') = []
  /\ ~ In EvLrStep (since w w').
Proof.
  intros w'. subst w'.
  destruct (train_run_frame config loader epoch sf w)
    as [l [tail [H1 [H2 [_ [H4 H5]]]]]].
  destruct (H5 _ eq_refl) as [A [B [C [D E]]]].
  rewrite (since_app _ _ _ H1).
  destruct (batch_event_silent l H2) as [S1 _].
  repeat split; auto.
  - change (saves ([EvLog (LogEpochLR epoch (lr (state w))); EvModelTrain]
                   ++ l ++ tail) = []).
    rewrite !saves_app, S1.
    destruct H4 as [-> | [a ->]]; reflexivity.
  - intros I. simpl in I. destruct I as [I | [I | I]]; try discriminate I.
    apply in_app_or in I. destruct I as [I | I].
    + exact (batch_event_no_lr_step l H2 I).
    + destruct H4 as [-> | [a ->]]; simpl in I;
        [contradiction | destruct I as [I | []]; discriminate I].
Qed.

(** Every forward pass of a training pass runs in training mode,
    whatever mode the model was in before, and in the gradient mode the
    pass was called in. *)
Theorem train_forwards_in_training_mode (config : Args) (loader : list Batch)
  (epoch : Z) (sf : SearchFor) (w : World) :
  forallb (forward_flags true (grad_enabled (state w)))
          (since w (fst (train config loader epoch sf w))) = true.
Proof.
  destruct (train_run_frame config loader epoch sf w)
    as [l [tail [H1 [_ [H3 [H4 _]]]]]].
  rewrite (since_app _ _ _ H1). simpl. rewrite forallb_app, H3.
  destruct H4 as [-> | [a ->]]; reflexivity.
Qed.

(** *** Exceptions *)

Lemma update_raises (m : AverageMeter.t) (v : float) (n : Z) (e : Exn) :
  AverageMeter.update m v n = Raise e -> e = ZeroDivisionError.
Proof.
  unfold AverageMeter.update. destruct (AverageMeter.count m + n =? 0);
    intros H; inversion H; reflexivity.
Qed.

Lemma finish_batch_raises (config : Args) (step len : Z) (ms : Meters)
  (l : float) (a : float * float) (n : Z) (e : Exn) :
  finish_batch config step len (update_meters ms l a n) = Raise e ->
  e = ZeroDivisionError.
Proof.
  unfold finish_batch, update_meters, log_due, mod_is_zero.
  destruct (AverageMeter.update (losses ms) l n) eqn:E1;
    [| intros H; inversion H; subst; apply (update_raises _ _ _ _ E1)].
  destruct (AverageMeter.update (top1 ms) (fst a) n) eqn:E2;
    [| intros H; inversion H; subst; apply (update_raises _ _ _ _ E2)].
  destruct (AverageMeter.update (top5 ms) (snd a) n) eqn:E3;
    [| intros H; inversion H; subst; apply (update_raises _ _ _ _ E3)].
  destruct (log_frequency config =? 0);
    [intros H; inversion H; reflexivity |].
  destruct (step mod log_frequency config =? 0); intros H; discriminate H.
Qed.

Lemma train_steps_raises (config : Args) (sf : SearchFor) (epoch len : Z)
  (batches : list Batch) (e : Exn) :
  forall (ms : Meters) (step : Z) (w : World),
  snd (train_steps config sf epoch len ms step batches w) = Raise e ->
  e = ZeroDivisionError.
Proof.
  induction batches as [| [x y] rest IH]; intros ms step w H.
  - discriminate H.
  - rewrite train_steps_cons in H.
    pose proof (train_batch_result config sf epoch len ms step x y w) as R.
    destruct (train_batch config sf epoch len ms step (x, y) w)
      as [w1 [ms1 | ex]].
    + apply (IH _ _ _ H).
    + simpl in H, R. inversion H. subst ex. symmetry in R.
      apply (finish_batch_raises _ _ _ _ _ _ _ _ R).
Qed.

Lemma validate_steps_raises (config : Args) (epoch len : Z)
  (batches : list Batch) (e : Exn) :
  forall (ms : Meters) (step : Z) (w : World),
  snd (validate_steps config epoch len ms step batches w) = Raise e ->
  e = ZeroDivisionError.
Proof.
  induction batches as [| [x y] rest IH]; intros ms step w H.
  - discriminate H.
  - rewrite validate_steps_cons in H.
    pose proof (validate_batch_result config epoch len ms step x y w) as R.
    destruct (validate_batch config epoch len ms step (x, y) w)
      as [w1 [ms1 | ex]].
    + apply (IH _ _ _ H).
    + simpl in H, R. inversion H. subst ex. symmetry in R.
      apply (finish_batch_raises _ _ _ _ _ _ _ _ R).
Qed.

Lemma train_raises (config : Args) (loader : list Batch) (epoch : Z)
  (sf : SearchFor) (w : World) (e : Exn) :
  snd (train config loader epoch sf w) = Raise e -> e = ZeroDivisionError.
Proof.
  unfold train. run.
  match goal with
  | |- context [train_steps ?c ?s ?ep ?n ?m ?i ?b ?w0] =>
    pose proof (train_steps_raises c s ep n b e m i w0) as T;
    destruct (train_steps c s ep n m i b w0) as [w1 [ms1 | ex]]
  end; simpl in *; intros H; [discriminate H |].
  inversion H. subst ex. apply T. reflexivity.
Qed.

Lemma validate_raises (config : Args) (loader : list Batch) (epoch cs : Z)
  (w : World) (e : Exn) :
  snd (validate config loader epoch cs w) = Raise e -> e = ZeroDivisionError.
Proof.
  unfold validate, with_no_grad. run.
  match goal with
  | |- context [validate_steps ?c ?ep ?n ?m ?i ?b ?w0] =>
    pose proof (validate_steps_raises c ep n b e m i w0) as T;
    destruct (validate_steps c ep n m i b w0) as [w1 [ms1 | ex]]
  end; simpl in *; intros H; [discriminate H |].
  inversion H. subst ex. apply T. reflexivity.
Qed.

Lemma epoch_body_raises (args : Args) (tl : Z -> list Batch) (vl : list Batch)
  (best : float) (ep : Z) (w : World) (e : Exn) :
  snd (epoch_body args tl vl best ep w) = Raise e -> e = ZeroDivisionError.
Proof.
  unfold epoch_body, train_validate, bind.
  pose proof (train_raises args (tl ep) ep (search_for args) w e) as T.
  destruct (train args (tl ep) ep (search_for args) w) as [w1 [[] | ex]];
    [| simpl in *; intros H; inversion H; subst ex; apply T; reflexivity].
  match goal with
  | |- context [validate ?c ?b ?i ?cs ?w0] =>
    pose proof (validate_raises c b i cs w0 e) as V;
    destruct (validate c b i cs w0) as [wv [t | ex]]
  end; [| exact V].
  destruct (checkpoint_run args best t wv) as [s' [-> _]].
  intros H. discriminate H.
Qed.

(** The only exception the passes and the driver raise by themselves is
    [ZeroDivisionError]: [aux_logits] is always bound where line 49
    reads it, so there is no [NameError]. *)
Theorem only_zero_division (args : Args) (tl : Z -> list Batch)
  (vl : list Batch) (w : World) (e : Exn) :
  (forall loader epoch sf w1,
     snd (train args loader epoch sf w1) = Raise e -> e = ZeroDivisionError)
  /\ (forall loader epoch cs w1,
        snd (validate args loader epoch cs w1) = Raise e ->
        e = ZeroDivisionError)
  /\ (snd (main_loop args tl vl w) = Raise e -> e = ZeroDivisionError).
Proof.
  split; [| split].
  - intros. eapply train_raises; eauto.
  - intros. eapply validate_raises; eauto.
  - unfold main_loop, bind.
    assert (E : forall n best ep w1,
               snd (epochs args tl vl best ep n w1) = Raise e ->
               e = ZeroDivisionError).
    { induction n as [| n IH]; intros best ep w1 H.
      - discriminate H.
      - rewrite epochs_S in H.
        pose proof (epoch_body_raises args tl vl best ep w1 e) as B.
        destruct (epoch_body args tl vl best ep w1) as [w2 [b | ex]].
        + apply (IH _ _ _ H).
        + apply B, H. }
    specialize (E (Z.to_nat (retrain_epochs args)) zero 0 w).
    destruct (epochs args tl vl zero 0 (Z.to_nat (retrain_epochs args)) w)
      as [w1 [b | ex]]; run; intros H; [discriminate H |].
    inversion H. subst ex. apply E. reflexivity.
Qed.

(** *** A log frequency of zero *)

Lemma finish_batch_zero_frequency (config : Args) (step len : Z) (ms : Meters)
  (l : float) (a : float * float) (n : Z) :
  log_frequency config = 0 ->
  finish_batch config step len (update_meters ms l a n)
  = Raise ZeroDivisionError.
Proof.
  intros Z0.
  destruct (finish_batch config step len (update_meters ms l a n))
    as [ms' | e] eqn:E.
  - unfold finish_batch, log_due, mod_is_zero in E. rewrite Z0 in E.
    destruct (update_meters ms l a n); discriminate E.
  - rewrite (finish_batch_raises _ _ _ _ _ _ _ _ E). reflexivity.
Qed.

Lemma opt_steps_app (a b : list Event) :
  opt_steps (a ++ b) = (opt_steps a + opt_steps b)%nat.
Proof. unfold opt_steps. rewrite filter_app, length_app. reflexivity. Qed.

Lemma opt_steps_logs (l : list Event) :
  forallb step_log l = true -> opt_steps l = O.
Proof.
  induction l as [| e l IH]; simpl; auto.
  intros H. apply andb_prop in H. destruct H as [He Hl].
  unfold opt_steps in *. simpl. destruct e; try discriminate He. apply IH, Hl.
Qed.

Lemma opt_steps_batch_calls (config : Args) (sf : SearchFor) (s : State)
  (x : Input) (y : Label) :
  opt_steps (batch_calls config sf s x y) = 1%nat.
Proof.
  unfold batch_calls. destruct (uses_aux config sf); reflexivity.
Qed.

(** With [--log-frequency 0] the first training batch raises once its
    optimizer step is done. *)
Lemma train_zero_frequency (config : Args) (x : Input) (y : Label)
  (rest : list Batch) (epoch : Z) (sf : SearchFor) (w : World) :
  log_frequency config = 0 ->
  exists l,
    snd (train config (((x, y) : Batch) :: rest) epoch sf w)
    = Raise ZeroDivisionError
    /\ trace (fst (train config (((x, y) : Batch) :: rest) epoch sf w))
       = trace w ++ l
    /\ saves l = []
    /\ opt_steps l = 1%nat.
Proof.
  intros Z0.
  unfold train, bind, get_lr, logger_info, model_train, call.
  cbv beta iota zeta.
  match goal with
  | |- context [train_steps ?c ?s ?e ?n ?m ?i (?b :: ?bs) ?w0] =>
    rewrite (train_steps_cons c s e n m i b bs w0);
    pose proof (train_batch_result c s e n m i x y w0) as R;
    destruct (train_batch_trace c s e n m i x y w0) as [logs [Ht Hl]];
    destruct (batch_calls_events c s (state w0) x y) as [Hb _];
    pose proof (opt_steps_batch_calls c s (state w0) x y) as Ho;
    rewrite finish_batch_zero_frequency in R by exact Z0;
    destruct (train_batch c s e n m i (x, y) w0) as [w1 r]
  end.
  cbn [state trace fst snd] in *. subst r.
  eexists. split; [reflexivity |]. cbn [fst].
  rewrite Ht, <- !app_assoc. split; [reflexivity |].
  destruct (batch_event_silent _ Hb) as [S1 _].
  destruct (batch_event_silent _ (step_log_batch_event _ Hl)) as [S2 _].
  split.
  - rewrite !saves_app, S1, S2. reflexivity.
  - rewrite !opt_steps_app, Ho, (opt_steps_logs _ Hl). reflexivity.
Qed.

(** With [--log-frequency 0], at least one epoch to run and a first
    training batch, the driver raises [ZeroDivisionError] in that batch:
    one optimizer step has been made, no validation accuracy has been
    reported, nothing has been saved and the schedule has not moved. *)
Theorem zero_log_frequency_raises (args : Args) (tl : Z -> list Batch)
  (vl : list Batch) (w : World) :
  log_frequency args = 0 ->
  0 < retrain_epochs args ->
  tl 0 <> [] ->
  let w' := fst (main_loop args tl vl w) in
  snd (main_loop args tl vl w) = Raise ZeroDivisionError
  /\ opt_steps (since w w') = 1%nat
  /\ valid_finals (since w w') = []
  /\ saves (since w w') = []
  /\ saved (state w') = saved (state w)
  /\ last_epoch (state w') = last_epoch (state w).
Proof.
  intros Z0 Hn Hl. cbv zeta.
  destruct (tl 0) as [| [x y] rest] eqn:L; [contradiction Hl; reflexivity |].
  destruct (train_zero_frequency args x y rest 0 (search_for args) w Z0)
    as [l [T1 [T2 [T3 T4]]]].
  destruct (train_run_frame args (((x, y) : Batch) :: rest) 0
              (search_for args) w)
    as [l0 [tail [F1 [F2 [_ [F4 F5]]]]]].
  destruct (F5 _ eq_refl) as [_ [_ [_ [D E]]]].
  assert (M : main_loop args tl vl w
              = (fst (train args (((x, y) : Batch) :: rest) 0
                            (search_for args) w),
                 Raise ZeroDivisionError)).
  { unfold main_loop, bind.
    destruct (Z.to_nat (retrain_epochs args)) as [| n] eqn:N; [lia |].
    rewrite epochs_S. unfold epoch_body, train_validate, bind. rewrite L.
    match type of T1 with
    | snd ?t = _ => rewrite (surjective_pairing t), T1
    end.
    reflexivity. }
  rewrite M. cbn [fst snd]. rewrite (since_app _ _ _ T2).
  repeat split; auto.
  rewrite F1 in T2. apply app_inv_head in T2. subst l.
  destruct (batch_event_silent l0 F2) as [_ [_ V]].
  change (valid_finals
            ([EvLog (LogEpochLR 0 (lr (state w))); EvModelTrain] ++ l0 ++ tail)
          = []).
  rewrite !valid_finals_app, V.
  destruct F4 as [-> | [a ->]]; reflexivity.
Qed.

(** A training pass over batches that hold samples returns exactly when
    the log frequency is not zero or there is no batch; so does a
    validation pass. *)
Theorem passes_return_iff (config : Args) (loader : list Batch)
  (epoch cs : Z) (sf : SearchFor) (w : World) :
  nonempty_batches loader ->
  (snd (train config loader epoch sf w) = Ok tt
   <-> (log_frequency config <> 0 \/ loader = []))
  /\ ((exists v, snd (validate config loader epoch cs w) = Ok v)
      <-> (log_frequency config <> 0 \/ loader = [])).
Proof.
  intros Hb. split; split.
  - intros R. destruct (Z.eq_dec (log_frequency config) 0) as [Z0 | N];
      [| left; exact N].
    destruct loader as [| [x y] rest]; [right; reflexivity |].
    destruct (train_zero_frequency config x y rest epoch sf w Z0)
      as [l [T1 _]].
    rewrite T1 in R. discriminate R.
  - intros [N | ->]; [apply train_ok; assumption | reflexivity].
  - intros [v R]. destruct (Z.eq_dec (log_frequency config) 0) as [Z0 | N];
      [| left; exact N].
    destruct loader as [| [x y] rest]; [right; reflexivity |].
    exfalso. revert R.
    unfold validate, with_no_grad, bind, model_eval, logger_info, call.
    cbv beta iota zeta.
    match goal with
    | |- context [validate_steps ?c ?e ?n ?m ?i (?b :: ?bs) ?w0] =>
      rewrite (validate_steps_cons c e n m i b bs w0);
      pose proof (validate_batch_result c e n m i x y w0) as R;
      rewrite finish_batch_zero_frequency in R by exact Z0;
      destruct (validate_batch c e n m i (x, y) w0) as [w1 r]
    end.
    simpl in R. subst r. simpl. discriminate.
  - intros [N | ->]; [apply validate_ok; assumption |].
    eexists. reflexivity.
Qed.

(** *** Edge cases of the epoch loop *)

(** No epoch to run: [range(retrain_epochs)] is empty for a count of
    zero or less, and the driver only reports a best accuracy of [0]. *)
Theorem no_epoch_to_run (args : Args) (tl : Z -> list Batch)
  (vl : list Batch) (w : World) :
  retrain_epochs args <= 0 ->
  main_loop args tl vl w
  = (mkWorld (state w) (trace w ++ [EvLog (LogFinalBest zero)]), Ok tt).
Proof.
  intros H. unfold main_loop, bind.
  replace (Z.to_nat (retrain_epochs args)) with O by lia.
  reflexivity.
Qed.

Lemma gt_not_ge (a b : float) : gt a b = true -> ge b a = false.
Proof.
  unfold gt, ge, SFltb, SFleb. rewrite (SFcompare_antisym b a).
  destruct (SFcompare b a) as [[ | | ] |]; intros H; try discriminate;
    reflexivity.
Qed.

Lemma nan_not_ge (a b : float) : is_nan a = true -> ge a b = false.
Proof.
  destruct a; try discriminate. intros _. unfold ge, SFleb.
  destruct b; reflexivity.
Qed.

(** An epoch whose accuracy is NaN or less than the best so far keeps
    the best accuracy and the saved file as they are and writes nothing;
    the schedule is stepped all the same. *)
Theorem checkpoint_skips_nan_and_lower (args : Args) (best t : float)
  (w : World) :
  is_nan t = true \/ gt best t = true ->
  let w' := fst (checkpoint args best t w) in
  snd (checkpoint args best t w) = Ok best
  /\ since w w' = [EvLrStep]
  /\ saved (state w') = saved (state w)
  /\ params (state w') = params (state w)
  /\ last_epoch (state w') = last_epoch (state w) + 1.
Proof.
  intros H. cbv zeta.
  assert (G : ge t best = false).
  { destruct H as [N | L]; [apply nan_not_ge, N | apply gt_not_ge, L]. }
  assert (M : max best t = best).
  { unfold max. destruct (gt t best) eqn:E; [| reflexivity].
    apply gt_ge in E. rewrite G in E. discriminate E. }
  unfold checkpoint. rewrite eq_max_ge, G, M. run.
  erewrite since_app by (simpl; reflexivity).
  repeat split.
Qed.

Lemma validate_empty (config : Args) (epoch cs : Z) (w : World) :
  validate config [] epoch cs w
  = (mkWorld (set_training false (state w))
       (trace w ++ [EvModelEval;
                    EvLog (LogValidFinal (epoch + 1) (retrain_epochs config)
                             zero)]),
     Ok zero).
Proof.
  unfold validate, with_no_grad. run. rewrite <- app_assoc. reflexivity.
Qed.

Lemma repeat_true_flags (n : nat) :
  wrote_flags zero (repeat zero n) = repeat true n.
Proof.
  induction n as [| n IH]; simpl; [reflexivity |].
  change (max zero zero) with zero. rewrite IH. reflexivity.
Qed.

Lemma epochs_empty_valid (args : Args) (tl : Z -> list Batch) (n : nat) :
  log_frequency args <> 0 ->
  (forall e, nonempty_batches (tl e)) ->
  forall (e : Z) (w : World),
  exists w' l,
    epochs args tl [] zero e n w = (w', Ok zero)
    /\ trace w' = trace w ++ l
    /\ valid_finals l = repeat zero n
    /\ phases l = run_phases e (repeat true n)
    /\ (n <> O -> saved (state w') = Some (params (state w'))).
Proof.
  intros Hf Ht. induction n as [| n IH]; intros e w.
  - exists w, []. rewrite app_nil_r. repeat split; auto.
    intros H. contradiction H. reflexivity.
  - rewrite epochs_S.
    destruct (train_validate_ok args tl [] e w Hf Ht (Forall_nil _))
      as [wv [t TV]].
    assert (Tz : t = zero).
    { revert TV. unfold train_validate, bind.
      destruct (train args (tl e) e (search_for args) w) as [w1 [[] | ex]];
        [| discriminate].
      rewrite validate_empty. intros H. inversion H. reflexivity. }
    subst t.
    destruct (train_validate_trace args tl [] e w wv zero TV)
      as [l [T1 [T2 [T3 T4]]]].
    destruct (checkpoint_run args zero zero wv) as [s' [C1 [C2 C3]]].
    change (ge zero zero) with true in C1, C2.
    change (max zero zero) with zero in C1.
    unfold epoch_body, bind. rewrite TV, C1.
    match goal with
    | |- context [epochs args tl [] zero (e + 1) n ?w1] =>
      destruct (IH (e + 1) w1) as [w' [l' [E [I1 [I2 [I3 I4]]]]]]
    end.
    exists w'. eexists. split; [exact E |].
    rewrite I1. simpl. rewrite T1, <- !app_assoc.
    split; [reflexivity |]. repeat split.
    + rewrite !valid_finals_app, T3, I2. reflexivity.
    + rewrite !phases_app, T4, I3. reflexivity.
    + intros _. destruct n as [| n'].
      * simpl in E. inversion E. simpl. rewrite C2, C3. reflexivity.
      * apply I4. discriminate.
Qed.

(** With an empty validation loader every validation pass returns [0],
    which ties the initial best: every epoch writes a checkpoint, the
    best accuracy stays [0], and after the run the saved file holds the
    parameters the last epoch left. *)
Theorem empty_validation_writes_every_epoch (args : Args)
  (tl : Z -> list Batch) (w : World) :
  log_frequency args <> 0 ->
  (forall e, nonempty_batches (tl e)) ->
  exists w',
    main_loop args tl [] w = (w', Ok tt)
    /\ valid_finals (since w w')
       = repeat zero (Z.to_nat (retrain_epochs args))
    /\ phases (since w w')
       = run_phases 0 (repeat true (Z.to_nat (retrain_epochs args)))
         ++ [PhFinalBest]
    /\ In (EvLog (LogFinalBest zero)) (since w w')
    /\ (0 < retrain_epochs args ->
        saved (state w') = Some (params (state w'))).
Proof.
  intros Hf Ht. unfold main_loop, bind.
  destruct (epochs_empty_valid args tl (Z.to_nat (retrain_epochs args)) Hf Ht 0 w)
    as [w1 [l [E [H1 [H2 [H3 H4]]]]]].
  rewrite E. run. eexists. split; [reflexivity |].
  erewrite since_app by (simpl; rewrite H1, <- app_assoc; reflexivity).
  rewrite valid_finals_app, phases_app, H2, H3. simpl. rewrite app_nil_r.
  repeat split.
  - apply in_or_app. right. left. reflexivity.
  - intros Hn. apply H4. lia.
Qed.

(** *** What a validation result depends on *)

Lemma finish_batch_frequency (c1 c2 : Args) (step len : Z)
  (r : Result Meters) :
  log_frequency c1 = log_frequency c2 ->
  finish_batch c1 step len r = finish_batch c2 step len r.
Proof.
  intros H. unfold finish_batch, log_due. rewrite H. reflexivity.
Qed.

Lemma validate_steps_same (c1 c2 : Args) (e1 e2 len : Z)
  (batches : list Batch) :
  log_frequency c1 = log_frequency c2 ->
  forall (ms : Meters) (step : Z) (w1 w2 : World),
  training (state w1) = false -> grad_enabled (state w1) = false ->
  training (state w2) = false -> grad_enabled (state w2) = false ->
  params (state w1) = params (state w2) ->
  snd (validate_steps c1 e1 len ms step batches w1)
  = snd (validate_steps c2 e2 len ms step batches w2).
Proof.
  intros Hf. induction batches as [| [x y] rest IH];
    intros ms step w1 w2 T1 G1 T2 G2 P; [reflexivity |].
  rewrite !validate_steps_cons.
  pose proof (validate_batch_result c1 e1 len ms step x y w1) as R1.
  pose proof (validate_batch_result c2 e2 len ms step x y w2) as R2.
  destruct (validate_batch_run c1 e1 len ms step x y w1 T1 G1) as [l1 [S1 _]].
  destruct (validate_batch_run c2 e2 len ms step x y w2 T2 G2) as [l2 [S2 _]].
  rewrite T1, P, (finish_batch_frequency c1 c2 _ _ _ Hf), <- T2, <- R2 in R1.
  destruct (validate_batch c1 e1 len ms step (x, y) w1) as [w1' r1].
  destruct (validate_batch c2 e2 len ms step (x, y) w2) as [w2' r2].
  simpl in R1, S1, S2. subst r1 w1' w2'.
  destruct r2 as [ms1 | ex]; [| reflexivity].
  apply IH; assumption.
Qed.

Lemma validate_snd (config : Args) (loader : list Batch) (epoch cs : Z)
  (w : World) :
  snd (validate config loader epoch cs w) =
  match snd (validate_steps config epoch (Z.of_nat (List.length loader))
               new_meters 0 loader
               (mkWorld (set_grad_enabled false (set_training false (state w)))
                        (trace w ++ [EvModelEval]))) with
  | Ok ms => Ok (AverageMeter.avg (top1 ms))
  | Raise ex => Raise ex
  end.
Proof.
  unfold validate, with_no_grad. run.
  match goal with
  | |- context [validate_steps ?c ?e ?n ?m ?i ?b ?w0] =>
    destruct (validate_steps c e n m i b w0) as [w1 [ms1 | ex]]
  end; reflexivity.
Qed.

Lemma validate_same (c1 c2 : Args) (loader : list Batch) (e1 e2 cs1 cs2 : Z)
  (w1 w2 : World) :
  log_frequency c1 = log_frequency c2 ->
  params (state w1) = params (state w2) ->
  snd (validate c1 loader e1 cs1 w1) = snd (validate c2 loader e2 cs2 w2).
Proof.
  intros Hf P. rewrite !validate_snd.
  erewrite (validate_steps_same c1 c2 e1 e2 _ loader Hf);
    [reflexivity | reflexivity | reflexivity | reflexivity | reflexivity |].
  simpl. exact P.
Qed.

(** What [validate] returns, or that it raises, depends on the model's
    parameters, the loader and the log frequency alone: not on the
    epoch, not on the argument [cur_step], not on the mode the model is
    in, the gradients or the optimizer. *)
Theorem validate_depends_on_parameters (c1 c2 : Args) (loader : list Batch)
  (e1 e2 cs1 cs2 : Z) (w1 w2 : World) :
  log_frequency c1 = log_frequency c2 ->
  params (state w1) = params (state w2) ->
  snd (validate c1 loader e1 cs1 w1) = snd (validate c2 loader e2 cs2 w2).
Proof. apply validate_same. Qed.

(** The checkpoint of an epoch holds parameters that reproduce the
    accuracy it was written for: validating any model that carries the
    saved parameters on the same loader returns that accuracy again. *)
Theorem checkpoint_reproduces_accuracy (args : Args) (tl : Z -> list Batch)
  (vl : list Batch) (best : float) (e : Z) (w wv : World) (t : float) :
  train_validate args tl vl e w = (wv, Ok t) ->
  ge t best = true ->
  exists w' p,
    epoch_body args tl vl best e w = (w', Ok (max best t))
    /\ saved (state w') = Some p
    /\ forall w2 e2 cs2,
       params (state w2) = p -> snd (validate args vl e2 cs2 w2) = Ok t.
Proof.
  intros TV G.
  destruct (checkpoint_run args best t wv) as [s' [C1 [C2 _]]].
  rewrite G in C1, C2.
  eexists. exists (params (state wv)).
  split; [unfold epoch_body, bind; rewrite TV; exact C1 |].
  split; [exact C2 |].
  intros w2 e2 cs2 P. revert TV. unfold train_validate, bind.
  destruct (train args (tl e) e (search_for args) w) as [w1 [[] | ex]];
    [| discriminate].
  intros V.
  match type of V with
  | validate ?c ?b ?i ?cs ?w0 = _ =>
    destruct (validate_run c b i cs w0) as [l [tail [V1 _]]];
    rewrite (validate_same c c b e2 i cs2 cs w2 w0 eq_refl)
  end.
  - rewrite V. reflexivity.
  - rewrite P. rewrite V in V1. simpl in V1. rewrite V1. reflexivity.
Qed.

(** *** The schedule over the epochs *)

Lemma checkpoint_schedule (args : Args) (best t : float) (w : World) :
  last_epoch (state (fst (checkpoint args best t w)))
  = last_epoch (state w) + 1
  /\ lr (state (fst (checkpoint args best t w)))
     = cosine_annealing (retrain_epochs args) (last_epoch (state w) + 1)
         (lr (state w)).
Proof.
  unfold checkpoint. destruct (eq t (max best t)); run; split; reflexivity.
Qed.

Lemma epoch_body_schedule (args : Args) (tl : Z -> list Batch)
  (vl : list Batch) (best : float) (e : Z) (w w' : World) (b : float) :
  epoch_body args tl vl best e w = (w', Ok b) ->
  last_epoch (state w') = last_epoch (state w) + 1
  /\ lr (state w')
     = cosine_annealing (retrain_epochs args) (last_epoch (state w) + 1)
         (lr (state w)).
Proof.
  unfold epoch_body, train_validate, bind.
  destruct (train_run_frame args (tl e) e (search_for args) w)
    as [l [tail [_ [_ [_ [_ Fr]]]]]].
  destruct (Fr _ eq_refl) as [_ [_ [L [E _]]]].
  destruct (train args (tl e) e (search_for args) w) as [w1 [[] | ex]];
    [| discriminate].
  simpl in L, E.
  match goal with
  | |- context [validate ?c ?bs ?i ?cs ?w0] =>
    destruct (validate_run c bs i cs w0) as [l2 [tail2 [V1 _]]];
    destruct (validate c bs i cs w0) as [wv [t | ex]]
  end; [| discriminate].
  simpl in V1. intros C.
  destruct (checkpoint_schedule args best t wv) as [A B].
  rewrite C in A, B. simpl in A, B.
  rewrite V1 in A, B. simpl in A, B. rewrite L, E in B. rewrite E in A.
  split; assumption.
Qed.

(** Over [n] epochs that return, the schedule is stepped [n] times:
    the epoch counter of the scheduler has moved by [n] and the learning
    rate is the one [n] steps of the cosine rule give; the passes
    themselves never change either. *)
Theorem schedule_steps_once_per_epoch (args : Args) (tl : Z -> list Batch)
  (vl : list Batch) (n : nat) :
  forall (best : float) (e : Z) (w w' : World) (b : float),
  epochs args tl vl best e n w = (w', Ok b) ->
  last_epoch (state w') = last_epoch (state w) + Z.of_nat n
  /\ (last_epoch (state w'), lr (state w'))
     = schedule_after (retrain_epochs args) (last_epoch (state w))
         (lr (state w)) n.
Proof.
  induction n as [| n IH]; intros best e w w' b E.
  - simpl in E. inversion E. simpl. rewrite Z.add_0_r. split; reflexivity.
  - rewrite epochs_S in E.
    destruct (epoch_body args tl vl best e w) as [w1 [b1 | ex]] eqn:B;
      [| discriminate E].
    destruct (epoch_body_schedule args tl vl best e w w1 b1 B) as [A L].
    destruct (IH b1 (e + 1) w1 w' b E) as [I1 I2].
    split; [rewrite I1, A; lia |].
    rewrite I2, A, L. reflexivity.
Qed.

(** *** The best accuracy bounds the accuracies *)

Lemma SFleb_trans (x y z : float) :
  SFleb x y = true -> SFleb y z = true -> SFleb x z = true.
Proof.
  unfold SFleb, SFcompare.
  destruct x as [[] | [] | | [] mx ex], y as [[] | [] | | [] my ey],
    z as [[] | [] | | [] mz ez];
    try reflexivity; try discriminate; intros H1 H2; try discriminate;
    change (Pos.compare_cont Eq) with Pos.compare in *;
    destruct (Z.compare_spec ex ey), (Z.compare_spec ey ez),
      (Z.compare_spec ex ez);
    try reflexivity; try discriminate; try lia; subst;
    destruct (Pos.compare_spec mx my), (Pos.compare_spec my mz),
      (Pos.compare_spec mx mz);
    try reflexivity; try discriminate; try lia.
Qed.

Lemma ge_trans (a b c : float) :
  ge a b = true -> ge b c = true -> ge a c = true.
Proof. unfold ge. intros H1 H2. exact (SFleb_trans c b a H2 H1). Qed.

Lemma SFcompare_total (x y : float) :
  is_nan x = false -> is_nan y = false -> exists c, SFcompare x y = Some c.
Proof.
  destruct x, y; simpl; intros Hx Hy; try discriminate; eexists; reflexivity.
Qed.

Lemma max_ge_new (best t : float) :
  is_nan best = false -> is_nan t = false -> ge (max best t) t = true.
Proof.
  intros Hb Ht. destruct (max_cases best t) as [[G ->] | [G ->]].
  - apply ge_refl, Ht.
  - destruct (SFcompare_total best t Hb Ht) as [c E].
    unfold gt, SFltb in G. unfold ge, SFleb.
    rewrite (SFcompare_antisym best t), E. rewrite E in G.
    destruct c; try reflexivity; discriminate G.
Qed.

Lemma fold_max_bounds (tops : list float) :
  forall best,
  is_nan best = false ->
  ge (fold_left max tops best) best = true
  /\ In (fold_left max tops best) (best :: tops)
  /\ forall t, In t tops -> is_nan t = false ->
               ge (fold_left max tops best) t = true.
Proof.
  induction tops as [| t0 rest IH]; intros best Hb; simpl.
  - split; [apply ge_refl, Hb |]. split; [left; reflexivity |].
    intros t [].
  - destruct (IH (max best t0) (max_not_nan best t0 Hb)) as [I1 [I2 I3]].
    split; [| split].
    + apply (ge_trans _ _ _ I1), max_ge_best, Hb.
    + destruct I2 as [I2 | I2].
      * destruct (max_cases best t0) as [[_ M] | [_ M]]; rewrite M in *;
          [right; left | left]; exact I2.
      * right. right. exact I2.
    + intros t [<- | I] Ht.
      * apply (ge_trans _ _ _ I1), max_ge_new; assumption.
      * apply I3; assumption.
Qed.

(** The best accuracy the driver reports at the end of a run that
    returns is [0] or one of the accuracies the validation passes
    returned, and it is greater than or equal to [0] and to each of
    those accuracies that is a number. *)
Theorem final_best_bounds_accuracies (args : Args) (tl : Z -> list Batch)
  (vl : list Batch) (w w' : World) :
  main_loop args tl vl w = (w', Ok tt) ->
  exists b,
    In (EvLog (LogFinalBest b)) (since w w')
    /\ In b (zero :: valid_finals (since w w'))
    /\ ge b zero = true
    /\ forall t, In t (valid_finals (since w w')) -> is_nan t = false ->
                 ge b t = true.
Proof.
  unfold main_loop, bind.
  destruct (epochs args tl vl zero 0 (Z.to_nat (retrain_epochs args)) w)
    as [w1 [b | ex]] eqn:E; [| discriminate].
  destruct (epochs_run args tl vl _ zero 0 w w1 b E) as [l [H1 [_ [H3 _]]]].
  run. intros H. inversion H. subst w'. clear H.
  erewrite since_app by (simpl; rewrite H1, <- app_assoc; reflexivity).
  rewrite valid_finals_app. simpl. rewrite app_nil_r.
  destruct (fold_max_bounds (valid_finals l) zero eq_refl) as [B1 [B2 B3]].
  rewrite <- H3 in B1, B2, B3.
  exists b. split; [apply in_or_app; right; left; reflexivity |].
  split; [exact B2 |]. split; [exact B1 | exact B3].
Qed.

End Coverage.

(** ** The claims on a run of the small framework *)

Section Examples.

#[local] Existing Instance Toy.framework.

(** The three validation accuracies of the run are [0], [0.5] and
    [0.5]: the first and the third epoch tie the best so far. *)
Example toy_accuracies :
  snd (Toy.passes_k 0) = Ok zero
  /\ snd (Toy.passes_k 1) = Ok Toy.half
  /\ snd (Toy.passes_k 2) = Ok Toy.half
  /\ snd (Toy.run_k 3) = Ok Toy.half.
Proof. vm_compute. repeat split. Qed.

(** With a log frequency of zero the first training batch makes its
    optimizer step and then raises. *)
Example toy_zero_log_frequency :
  snd (train (Toy.args0 Macro 2 0) (Toy.train_loader 0) 0 Macro Toy.world0)
  = Raise ZeroDivisionError.
Proof. vm_compute. reflexivity. Qed.

Lemma checkpoint_iff_ge_witness :
  Toy.run_k 2 = (Toy.world_k 2, Ok Toy.half)
  /\ Toy.passes_k 2 = (fst (Toy.passes_k 2), Ok Toy.half)
  /\ Toy.half
     = fold_left max (valid_finals (since Toy.world0 (Toy.world_k 2))) zero
  /\ exists w',
      Toy.run_k 3 = (w', Ok (max Toy.half Toy.half))
      /\ saves (since (Toy.world_k 2) w')
         = (if ge Toy.half Toy.half
            then [params (state (fst (Toy.passes_k 2)))] else [])
      /\ (saves (since (Toy.world_k 2) w') <> [] <-> ge Toy.half Toy.half = true)
      /\ (ge Toy.half Toy.half = true ->
          In (EvSave (result_file Toy.args3)
                (params (state (fst (Toy.passes_k 2)))))
             (since (Toy.world_k 2) w'))
      /\ saved (state w')
         = (if ge Toy.half Toy.half
            then Some (params (state (fst (Toy.passes_k 2))))
            else saved (state (fst (Toy.passes_k 2)))).
Proof.
  assert (H1 : Toy.run_k 2 = (Toy.world_k 2, Ok Toy.half)).
  { refine (pair_snd_eq (Toy.run_k 2) (Ok Toy.half) _). vm_compute. reflexivity. }
  assert (H2 : Toy.passes_k 2 = (fst (Toy.passes_k 2), Ok Toy.half)).
  { refine (pair_snd_eq (Toy.passes_k 2) (Ok Toy.half) _). vm_compute. reflexivity. }
  split; [exact H1 |]. split; [exact H2 |].
  exact (checkpoint_iff_ge Toy.args3 Toy.train_loader Toy.valid_loader
           Toy.world0 2 (Toy.world_k 2) Toy.half (fst (Toy.passes_k 2))
           Toy.half H1 H2).
Defined.

Lemma best_top1_monotone_witness :
  Toy.run_k 1 = (Toy.world_k 1, Ok zero)
  /\ Toy.run_k 2 = (Toy.world_k 2, Ok Toy.half)
  /\ ge Toy.half zero = true.
Proof.
  assert (H1 : Toy.run_k 1 = (Toy.world_k 1, Ok zero)).
  { refine (pair_snd_eq (Toy.run_k 1) (Ok zero) _). vm_compute. reflexivity. }
  assert (H2 : Toy.run_k 2 = (Toy.world_k 2, Ok Toy.half)).
  { refine (pair_snd_eq (Toy.run_k 2) (Ok Toy.half) _). vm_compute. reflexivity. }
  split; [exact H1 |]. split; [exact H2 |].
  exact (best_top1_monotone Toy.args3 Toy.train_loader Toy.valid_loader
           Toy.world0 1 (Toy.world_k 1) zero (Toy.world_k 2) Toy.half H1 H2).
Defined.

Lemma first_epoch_writes_witness :
  0 < retrain_epochs Toy.args3
  /\ Toy.passes_0 = (fst (Toy.passes_0), Ok zero)
  /\ ge zero zero = true
  /\ exists w1 rest,
      epochs Toy.args3 Toy.train_loader Toy.valid_loader zero 0 1 Toy.world0
      = (w1, Ok (max zero zero))
      /\ saves (since Toy.world0 w1) = [params (state (fst (Toy.passes_0)))]
      /\ saved (state w1) = Some (params (state (fst (Toy.passes_0))))
      /\ trace (fst (main_loop Toy.args3 Toy.train_loader Toy.valid_loader
                       Toy.world0))
         = trace w1 ++ rest.
Proof.
  assert (H1 : 0 < retrain_epochs Toy.args3) by reflexivity.
  assert (H2 : Toy.passes_0 = (fst (Toy.passes_0), Ok zero)).
  { refine (pair_snd_eq (Toy.passes_0) (Ok zero) _). vm_compute. reflexivity. }
  assert (H3 : ge zero zero = true) by reflexivity.
  split; [exact H1 |]. split; [exact H2 |]. split; [exact H3 |].
  exact (first_epoch_writes Toy.args3 Toy.train_loader Toy.valid_loader
           Toy.world0 (fst (Toy.passes_0)) zero H1 H2 H3).
Defined.


Lemma validate_returns_top1_average_witness :
  log_frequency Toy.args3 <> 0
  /\ nonempty_batches Toy.valid_loader
  /\ snd (validate Toy.args3 Toy.valid_loader 2 3 (Toy.world_k 2))
     = Ok Toy.half.
Proof.
  assert (H1 : log_frequency Toy.args3 <> 0) by (intros H; discriminate H).
  assert (H2 : nonempty_batches Toy.valid_loader).
  { repeat constructor. }
  split; [exact H1 |]. split; [exact H2 |].
  destruct (validate_returns_top1_average Toy.args3 Toy.valid_loader 2 3
              (Toy.world_k 2) H1 H2) as [V _].
  rewrite V. vm_compute. reflexivity.
Defined.

(** C2 as stated fails: in the third epoch of the run the validation
    accuracy [0.5] does not exceed the best accuracy [0.5] of the epochs
    before, it ties it, and the parameter state is written all the
    same. *)
Lemma tie_epoch_writes :
  snd (Toy.run_k 2) = Ok Toy.half
  /\ snd (Toy.passes_k 2) = Ok Toy.half
  /\ gt Toy.half Toy.half = false
  /\ eq Toy.half Toy.half = true
  /\ saves (since (fst (Toy.passes_k 2)) (Toy.world_k 3)) = [3]
  /\ saved (state (Toy.world_k 3)) = Some 3.
Proof. vm_compute. repeat split. Qed.

(** C5 on the loader of two batches, of sizes [2] and [1]: the pass
    returns, and its calls are the operations of a batch, twice. *)
Lemma train_batch_order_witness :
  log_frequency Toy.args3 <> 0
  /\ nonempty_batches Toy.valid_loader
  /\ snd (train Toy.args3 Toy.valid_loader 0 Micro Toy.world0) = Ok tt
  /\ kinds (since Toy.world0
              (fst (train Toy.args3 Toy.valid_loader 0 Micro Toy.world0)))
     = List.concat (repeat (batch_kinds Toy.args3 Micro)
                      (List.length Toy.valid_loader)).
Proof.
  assert (H1 : log_frequency Toy.args3 <> 0) by (intros H; discriminate H).
  assert (H2 : nonempty_batches Toy.valid_loader) by (repeat constructor).
  split; [exact H1 |]. split; [exact H2 |].
  exact (proj1 (proj2 (proj2 (proj2
           (train_batch_order Toy.args3 Toy.valid_loader 0 Micro Toy.world0))))
           H1 H2).
Defined.

(** The command lines [--workers 8 nas.json out.pt], [nas.json out.pt]
    and [--retrain-epochs 8 nas.json out.pt]. *)
Example toy_workers :
  option_map workers
    (Cli.parse_args Toy.py_int Toy.py_float
       (Cli.mkCommandLine [(Cli.OptWorkers, "8")] "nas.json" "out.pt")%string)
  = Some (PyStr "8")
  /\ option_map workers
       (Cli.parse_args Toy.py_int Toy.py_float
          (Cli.mkCommandLine [] "nas.json" "out.pt")%string)
     = Some (PyInt 4)
  /\ option_map retrain_epochs
       (Cli.parse_args Toy.py_int Toy.py_float
          (Cli.mkCommandLine [(Cli.OptRetrainEpochs, "8")]
             "nas.json" "out.pt")%string)
     = Some 8.
Proof. vm_compute. repeat split. Qed.



End Examples.

(** ** The further properties on the small framework *)

Section MoreExamples.

#[local] Existing Instance Toy.framework.

Lemma zero_log_frequency_raises_witness :
  log_frequency Toy.args_lf0 = 0
  /\ 0 < retrain_epochs Toy.args_lf0
  /\ Toy.train_loader 0 <> []
  /\ let w' := fst (main_loop Toy.args_lf0 Toy.train_loader Toy.valid_loader
                      Toy.world0) in
     snd (main_loop Toy.args_lf0 Toy.train_loader Toy.valid_loader Toy.world0)
     = Raise ZeroDivisionError
     /\ opt_steps (since Toy.world0 w') = 1%nat
     /\ valid_finals (since Toy.world0 w') = []
     /\ saves (since Toy.world0 w') = []
     /\ saved (state w') = saved (state Toy.world0)
     /\ last_epoch (state w') = last_epoch (state Toy.world0).
Proof.
  assert (H1 : log_frequency Toy.args_lf0 = 0) by reflexivity.
  assert (H2 : 0 < retrain_epochs Toy.args_lf0) by reflexivity.
  assert (H3 : Toy.train_loader 0 <> []) by (intros H; discriminate H).
  split; [exact H1 |]. split; [exact H2 |]. split; [exact H3 |].
  exact (zero_log_frequency_raises Toy.args_lf0 Toy.train_loader
           Toy.valid_loader Toy.world0 H1 H2 H3).
Defined.

Lemma passes_return_iff_witness :
  nonempty_batches Toy.valid_loader
  /\ (snd (train Toy.args3 Toy.valid_loader 0 Micro Toy.world0) = Ok tt
      <-> (log_frequency Toy.args3 <> 0 \/ Toy.valid_loader = []))
  /\ ((exists v, snd (validate Toy.args3 Toy.valid_loader 0 0 Toy.world0) = Ok v)
      <-> (log_frequency Toy.args3 <> 0 \/ Toy.valid_loader = [])).
Proof.
  assert (H : nonempty_batches Toy.valid_loader) by (repeat constructor).
  split; [exact H |].
  exact (passes_return_iff Toy.args3 Toy.valid_loader 0 0 Micro Toy.world0 H).
Defined.

Lemma no_epoch_to_run_witness :
  retrain_epochs (Toy.args0 Macro (-1) 10) <= 0
  /\ main_loop (Toy.args0 Macro (-1) 10) Toy.train_loader Toy.valid_loader
       Toy.world0
     = (mkWorld (state Toy.world0)
          (trace Toy.world0 ++ [EvLog (LogFinalBest zero)]), Ok tt).
Proof.
  assert (H : retrain_epochs (Toy.args0 Macro (-1) 10) <= 0)
    by (intros C; discriminate C).
  split; [exact H |].
  exact (no_epoch_to_run (Toy.args0 Macro (-1) 10) Toy.train_loader
           Toy.valid_loader Toy.world0 H).
Defined.

Lemma checkpoint_skips_nan_and_lower_witness :
  (is_nan S754_nan = true \/ gt Toy.half S754_nan = true)
  /\ let w' := fst (checkpoint Toy.args3 Toy.half S754_nan Toy.world0) in
     snd (checkpoint Toy.args3 Toy.half S754_nan Toy.world0) = Ok Toy.half
     /\ since Toy.world0 w' = [EvLrStep]
     /\ saved (state w') = saved (state Toy.world0)
     /\ params (state w') = params (state Toy.world0)
     /\ last_epoch (state w') = last_epoch (state Toy.world0) + 1.
Proof.
  assert (H : is_nan S754_nan = true \/ gt Toy.half S754_nan = true)
    by (left; reflexivity).
  split; [exact H |].
  exact (checkpoint_skips_nan_and_lower Toy.args3 Toy.half S754_nan
           Toy.world0 H).
Defined.

Lemma empty_validation_writes_every_epoch_witness :
  log_frequency Toy.args3 <> 0
  /\ (forall e, nonempty_batches (Toy.train_loader e))
  /\ exists w',
      main_loop Toy.args3 Toy.train_loader [] Toy.world0 = (w', Ok tt)
      /\ valid_finals (since Toy.world0 w')
         = repeat zero (Z.to_nat (retrain_epochs Toy.args3))
      /\ phases (since Toy.world0 w')
         = run_phases 0 (repeat true (Z.to_nat (retrain_epochs Toy.args3)))
           ++ [PhFinalBest]
      /\ In (EvLog (LogFinalBest zero)) (since Toy.world0 w')
      /\ (0 < retrain_epochs Toy.args3 ->
          saved (state w') = Some (params (state w'))).
Proof.
  assert (H1 : log_frequency Toy.args3 <> 0) by (intros H; discriminate H).
  assert (H2 : forall e, nonempty_batches (Toy.train_loader e)).
  { intros e. repeat constructor. }
  split; [exact H1 |]. split; [exact H2 |].
  exact (empty_validation_writes_every_epoch Toy.args3 Toy.train_loader
           Toy.world0 H1 H2).
Defined.

Lemma validate_depends_on_parameters_witness :
  log_frequency Toy.args3 = log_frequency (Toy.args0 Macro 5 10)
  /\ params (state Toy.world0) = params (state Toy.world0')
  /\ snd (validate Toy.args3 Toy.valid_loader 0 0 Toy.world0)
     = snd (validate (Toy.args0 Macro 5 10) Toy.valid_loader 9 4 Toy.world0').
Proof.
  assert (H1 : log_frequency Toy.args3 = log_frequency (Toy.args0 Macro 5 10))
    by reflexivity.
  assert (H2 : params (state Toy.world0) = params (state Toy.world0'))
    by reflexivity.
  split; [exact H1 |]. split; [exact H2 |].
  exact (validate_depends_on_parameters Toy.args3 (Toy.args0 Macro 5 10)
           Toy.valid_loader 0 9 0 4 Toy.world0 Toy.world0' H1 H2).
Defined.

Lemma checkpoint_reproduces_accuracy_witness :
  Toy.passes_k 2 = (fst (Toy.passes_k 2), Ok Toy.half)
  /\ ge Toy.half Toy.half = true
  /\ exists w' p,
      epoch_body Toy.args3 Toy.train_loader Toy.valid_loader Toy.half
        (Z.of_nat 2) (Toy.world_k 2)
      = (w', Ok (max Toy.half Toy.half))
      /\ saved (state w') = Some p
      /\ forall w2 e2 cs2,
         params (state w2) = p ->
         snd (validate Toy.args3 Toy.valid_loader e2 cs2 w2) = Ok Toy.half.
Proof.
  assert (H1 : Toy.passes_k 2 = (fst (Toy.passes_k 2), Ok Toy.half)).
  { refine (pair_snd_eq (Toy.passes_k 2) (Ok Toy.half) _).
    vm_compute. reflexivity. }
  assert (H2 : ge Toy.half Toy.half = true) by reflexivity.
  split; [exact H1 |]. split; [exact H2 |].
  exact (checkpoint_reproduces_accuracy Toy.args3 Toy.train_loader
           Toy.valid_loader Toy.half (Z.of_nat 2) (Toy.world_k 2)
           (fst (Toy.passes_k 2)) Toy.half H1 H2).
Defined.

Lemma schedule_steps_once_per_epoch_witness :
  Toy.run_k 2 = (Toy.world_k 2, Ok Toy.half)
  /\ last_epoch (state (Toy.world_k 2))
     = last_epoch (state Toy.world0) + Z.of_nat 2
  /\ (last_epoch (state (Toy.world_k 2)), lr (state (Toy.world_k 2)))
     = schedule_after (retrain_epochs Toy.args3)
         (last_epoch (state Toy.world0)) (lr (state Toy.world0)) 2.
Proof.
  assert (H : Toy.run_k 2 = (Toy.world_k 2, Ok Toy.half)).
  { refine (pair_snd_eq (Toy.run_k 2) (Ok Toy.half) _).
    vm_compute. reflexivity. }
  split; [exact H |].
  exact (schedule_steps_once_per_epoch Toy.args3 Toy.train_loader
           Toy.valid_loader 2 zero 0 Toy.world0 (Toy.world_k 2) Toy.half H).
Defined.

Lemma final_best_bounds_accuracies_witness :
  Toy.main3 = (fst Toy.main3, Ok tt)
  /\ exists b,
      In (EvLog (LogFinalBest b)) (since Toy.world0 (fst Toy.main3))
      /\ In b (zero :: valid_finals (since Toy.world0 (fst Toy.main3)))
      /\ ge b zero = true
      /\ forall t,
         In t (valid_finals (since Toy.world0 (fst Toy.main3))) ->
         is_nan t = false -> ge b t = true.
Proof.
  assert (H : Toy.main3 = (fst Toy.main3, Ok tt)).
  { refine (pair_snd_eq Toy.main3 (Ok tt) _). vm_compute. reflexivity. }
  split; [exact H |].
  exact (final_best_bounds_accuracies Toy.args3 Toy.train_loader
           Toy.valid_loader Toy.world0 (fst Toy.main3) H).
Defined.

Lemma typed_options_last_wins_witness :
  Cli.parse_args Toy.py_int Toy.py_float
    (Cli.mkCommandLine
       [(Cli.OptRetrainEpochs, "3"); (Cli.OptRetrainEpochs, "8")]
       "nas.json" "out.pt")%string
  = Some (mkArgs Macro 8 128 (PyInt 4) Cli.f0_4 Cli.f5_0 10 6
            "nas.json" "out.pt")
  /\ Toy.py_int "8" = Some 8.
Proof.
  assert (P : Cli.parse_args Toy.py_int Toy.py_float
                (Cli.mkCommandLine
                   [(Cli.OptRetrainEpochs, "3"); (Cli.OptRetrainEpochs, "8")]
                   "nas.json" "out.pt")%string
              = Some (mkArgs Macro 8 128 (PyInt 4) Cli.f0_4 Cli.f5_0 10 6
                        "nas.json" "out.pt")) by reflexivity.
  split; [exact P |].
  refine (proj1 (typed_options_last_wins Toy.py_int Toy.py_float _ _
                   [(Cli.OptRetrainEpochs, "3")]%string [] Cli.OptRetrainEpochs
                   "8" P eq_refl _) eq_refl).
  intros [].
Defined.

(** The parser on two command lines: a value [int] rejects and a
    family that is not among the choices are errors. *)
Example toy_parse_errors :
  Cli.parse_args Toy.py_int Toy.py_float
    (Cli.mkCommandLine [(Cli.OptBatchSize, "many")]
       "nas.json" "out.pt")%string
  = None
  /\ Cli.parse_args Toy.py_int Toy.py_float
       (Cli.mkCommandLine [(Cli.OptSearchFor, "nano")]
          "nas.json" "out.pt")%string
     = None.
Proof. vm_compute. repeat split. Qed.

End MoreExamples.
